(** * Dynamic filter: the field-typed filter evaluation engine

    A shallow embedding of [src/utils/filterUtils.ts], of the field schema
    [src/config/fieldDefinitions.ts] and of the fragment of the JavaScript
    run time that these two files exercise, followed by the properties of
    the engine.

    The TypeScript annotations of the source are erased at run time, so the
    evaluators are modelled on untyped JavaScript values and may complete
    abruptly with a [TypeError]. *)

From Stdlib Require Import ZArith QArith Qabs String Ascii List Bool Lia.
From stdpp Require Import gmap strings list.

Open Scope string_scope.
Set Warnings "-register-all".

(** * The JavaScript fragment *)

Module Js.

(** ** Values *)

(** A number is NaN, an infinity, or a finite value.  The engine only
    compares numbers, and comparison of finite doubles is comparison of the
    rationals they denote; [Fin 0] stands for both zeros. *)
Inductive JsNum : Type :=
| NaN
| PosInf
| NegInf
| Fin (q : Q).

(** JSON-shaped values.  A string is a sequence of code units below 256.
    Objects keep their properties in insertion order.  Members inherited
    from the built-in prototypes (methods such as [toString]) are not
    properties of the model: property keys are looked up among own data
    properties, and the conversions account for the inherited [toString]
    and [valueOf] themselves. *)
Inductive JsValue : Type :=
| JUndefined
| JNull
| JBool (b : bool)
| JNum (n : JsNum)
| JStr (s : string)
| JArr (elems : list JsValue)
| JObj (props : list (string * JsValue)).

Definition JInt (z : Z) : JsValue := JNum (Fin (inject_Z z)).

(** The members every object inherits from [Object.prototype].  A lookup
    of one of these names in a table finds the inherited member; statements
    about tables keyed by arbitrary strings exclude them. *)
Definition objectPrototypeKeys : list string :=
  ["constructor"; "hasOwnProperty"; "isPrototypeOf"; "propertyIsEnumerable";
   "toLocaleString"; "toString"; "valueOf"; "__proto__";
   "__defineGetter__"; "__defineSetter__"; "__lookupGetter__"; "__lookupSetter__"].

(** ** Completions *)

(** The only abrupt completion the engine can produce is a [TypeError]. *)
Inductive Completion (A : Type) : Type :=
| Normal (a : A)
| ThrowTypeError.
Arguments Normal {A} a.
Arguments ThrowTypeError {A}.

#[global] Instance Completion_ret : MRet Completion := @Normal.
#[global] Instance Completion_bind : MBind Completion :=
  fun A B f m => match m with Normal a => f a | ThrowTypeError => ThrowTypeError end.

Definition returns {A} (m : Completion A) : Prop := exists a, m = Normal a.

(** ** The host *)

(** What the run time decides and the repository does not: the local time
    zone, the numeric-literal grammar of [ToNumber] on strings, the digits
    of [ToString] on numbers, and the implementation-defined part of
    [Date.parse]. *)
Record Host : Type := {
  LocalTZA : Z;                          (* local time = UTC + LocalTZA, in ms *)
  StringToNumber : string -> JsNum;
  NumberToString : JsNum -> string;
  DateParseLegacy : string -> option Z;
}.

(** ** Numbers *)

Definition num_eq (a b : JsNum) : bool :=
  match a, b with
  | Fin p, Fin q => Qeq_bool p q
  | PosInf, PosInf | NegInf, NegInf => true
  | _, _ => false
  end.

(** [num_lt a b] is [Some] of the answer, [None] when an operand is NaN
    (the spec's "undefined" result of IsLessThan). *)
Definition num_lt (a b : JsNum) : option bool :=
  match a, b with
  | NaN, _ | _, NaN => None
  | PosInf, _ => Some false
  | _, NegInf => Some false
  | NegInf, _ => Some true
  | _, PosInf => Some true
  | Fin p, Fin q => Some (negb (Qle_bool q p))
  end.

Definition num_isNaN (a : JsNum) : bool :=
  match a with NaN => true | _ => false end.

Definition num_isFinite (a : JsNum) : bool :=
  match a with Fin _ => true | _ => false end.

(** ** Strings *)

Definition lower_unit (c : ascii) : ascii :=
  let n := N_of_ascii c in
  if ((65 <=? n) && (n <=? 90) || (192 <=? n) && (n <=? 222) && negb (n =? 215))%N
  then ascii_of_N (n + 32) else c.

Fixpoint toLowerCase (s : string) : string :=
  match s with
  | EmptyString => EmptyString
  | String c t => String (lower_unit c) (toLowerCase t)
  end.

Definition startsWith (s p : string) : bool := String.prefix p s.

Fixpoint includes (s sub : string) : bool :=
  String.prefix sub s ||
  match s with
  | EmptyString => false
  | String _ t => includes t sub
  end.

Fixpoint endsWith (s suf : string) : bool :=
  String.eqb s suf ||
  match s with
  | EmptyString => false
  | String _ t => endsWith t suf
  end.

Definition is_white (c : ascii) : bool :=
  let n := N_of_ascii c in
  ((9 <=? n) && (n <=? 13) || (n =? 32) || (n =? 160))%N.

Fixpoint trimStart (s : string) : string :=
  match s with
  | EmptyString => EmptyString
  | String c t => if is_white c then trimStart t else s
  end.

Fixpoint trimEnd (s : string) : string :=
  match s with
  | EmptyString => EmptyString
  | String c t =>
      match trimEnd t with
      | EmptyString => if is_white c then EmptyString else String c EmptyString
      | t' => String c t'
      end
  end.

Definition trim (s : string) : string := trimEnd (trimStart s).

(** [s.split(sep)] for a one-unit separator: never empty, [""] splits to [[""]]. *)
Fixpoint split (sep : ascii) (s : string) : list string :=
  match s with
  | EmptyString => [EmptyString]
  | String c t =>
      if Ascii.eqb c sep then EmptyString :: split sep t
      else match split sep t with
           | [] => [String c EmptyString]
           | w :: ws => String c w :: ws
           end
  end.

Fixpoint join (sep : string) (l : list string) : string :=
  match l with
  | [] => EmptyString
  | [x] => x
  | x :: t => x ++ sep ++ join sep t
  end.

(** ** Tests on values *)

(** ToBoolean. *)
Definition truthy (v : JsValue) : bool :=
  match v with
  | JUndefined | JNull => false
  | JBool b => b
  | JNum NaN => false
  | JNum (Fin q) => negb (Qeq_bool q 0)
  | JNum _ => true
  | JStr s => negb (String.eqb s "")
  | JArr _ | JObj _ => true
  end.

(** [v === undefined || v === null]. *)
Definition nullish (v : JsValue) : bool :=
  match v with
  | JUndefined | JNull => true
  | _ => false
  end.

Definition typeof (v : JsValue) : string :=
  match v with
  | JUndefined => "undefined"
  | JNull | JArr _ | JObj _ => "object"
  | JBool _ => "boolean"
  | JNum _ => "number"
  | JStr _ => "string"
  end.

Definition isArray (v : JsValue) : bool :=
  match v with JArr _ => true | _ => false end.

Definition isString (v : JsValue) : bool :=
  match v with JStr _ => true | _ => false end.

(** [a === b].  Two objects are equal only when they are the same
    allocation; the engine compares a value read from a record with a value
    read from a condition, which never are, so the answer is [false]. *)
Definition strictEq (a b : JsValue) : bool :=
  match a, b with
  | JUndefined, JUndefined | JNull, JNull => true
  | JBool x, JBool y => Bool.eqb x y
  | JNum x, JNum y => num_eq x y
  | JStr x, JStr y => String.eqb x y
  | _, _ => false
  end.

(** SameValueZero, the comparison of [Array.prototype.includes]. *)
Definition sameValueZero (a b : JsValue) : bool :=
  match a, b with
  | JNum NaN, JNum NaN => true
  | _, _ => strictEq a b
  end.

Definition arrayIncludes (l : list JsValue) (v : JsValue) : bool :=
  existsb (fun x => sameValueZero x v) l.

(** ** Property access *)

Fixpoint assoc (key : string) (props : list (string * JsValue)) : option JsValue :=
  match props with
  | [] => None
  | (k, v) :: rest => if String.eqb k key then Some v else assoc key rest
  end.

Definition digit_of (c : ascii) : option nat :=
  let n := nat_of_ascii c in
  if (48 <=? n)%nat && (n <=? 57)%nat then Some (n - 48)%nat else None.

Fixpoint digits_from (acc : nat) (s : string) : option nat :=
  match s with
  | EmptyString => Some acc
  | String c t =>
      match digit_of c with
      | Some d => digits_from (10 * acc + d) t
      | None => None
      end
  end.

(** A canonical array index: ["0"], or digits without a leading zero. *)
Definition parseIndex (key : string) : option nat :=
  match key with
  | EmptyString => None
  | String "0" EmptyString => Some 0%nat
  | String "0" _ => None
  | _ => digits_from 0 key
  end.

Definition JLen (n : nat) : JsValue := JInt (Z.of_nat n).

(** [v[key]] on a value that is neither undefined nor null. *)
Definition ownProp (v : JsValue) (key : string) : JsValue :=
  match v with
  | JObj props => default JUndefined (assoc key props)
  | JArr l =>
      if String.eqb key "length" then JLen (List.length l)
      else match parseIndex key with
           | Some i => nth i l JUndefined
           | None => JUndefined
           end
  | JStr s =>
      if String.eqb key "length" then JLen (String.length s)
      else match parseIndex key with
           | Some i => match String.get i s with
                       | Some c => JStr (String c EmptyString)
                       | None => JUndefined
                       end
           | None => JUndefined
           end
  | _ => JUndefined
  end.

(** [v[key]] and [v.key]: reading a property of undefined or null throws. *)
Definition getProp (v : JsValue) (key : string) : Completion JsValue :=
  if nullish v then ThrowTypeError else Normal (ownProp v key).

(** [v?.[key]]. *)
Definition getPropOpt (v : JsValue) (key : string) : JsValue :=
  if nullish v then JUndefined else ownProp v key.

(** [key in v] for a [v] whose [typeof] is ["object"] and that is not null. *)
Definition hasProp (key : string) (v : JsValue) : bool :=
  match v with
  | JObj props => bool_decide (is_Some (assoc key props))
  | JArr l =>
      String.eqb key "length" ||
      match parseIndex key with
      | Some i => (i <? List.length l)%nat
      | None => false
      end
  | _ => false
  end.

(** ** Conversions *)

Definition hasOwn (key : string) (props : list (string * JsValue)) : bool :=
  bool_decide (is_Some (assoc key props)).

(** ToString.  An array joins the strings of its elements.  A plain object
    inherits [toString], which answers ["[object Object]"]; an own property
    named [toString] hides it, is data and cannot be called, and the
    conversion throws. *)
Fixpoint ToString (h : Host) (v : JsValue) : Completion string :=
  match v with
  | JUndefined => Normal "undefined"
  | JNull => Normal "null"
  | JBool true => Normal "true"
  | JBool false => Normal "false"
  | JNum n => Normal (NumberToString h n)
  | JStr s => Normal s
  | JArr l =>
      parts ← (fix elems (l : list JsValue) : Completion (list string) :=
                 match l with
                 | [] => Normal []
                 | x :: t =>
                     s ← (if nullish x then Normal "" else ToString h x);
                     rest ← elems t;
                     Normal (s :: rest)
                 end) l;
      Normal (join "," parts)
  | JObj props =>
      if hasOwn "toString" props then ThrowTypeError else Normal "[object Object]"
  end.

(** ToPrimitive: arrays and plain objects convert through [toString()],
    their inherited [valueOf] answering the object itself. *)
Definition ToPrimitive (h : Host) (v : JsValue) : Completion JsValue :=
  match v with
  | JArr _ | JObj _ => s ← ToString h v; Normal (JStr s)
  | _ => Normal v
  end.

(** ToNumber on a primitive. *)
Definition ToNumberPrimitive (h : Host) (p : JsValue) : JsNum :=
  match p with
  | JUndefined => NaN
  | JNull => Fin 0
  | JBool b => Fin (if b then 1 else 0)
  | JNum n => n
  | JStr s => StringToNumber h s
  | _ => NaN
  end.

Definition ToNumber (h : Host) (v : JsValue) : Completion JsNum :=
  p ← ToPrimitive h v; Normal (ToNumberPrimitive h p).

(** ** Relational operators *)

(** IsLessThan: two strings compare by code units, anything else as numbers. *)
Definition isLessThan (h : Host) (x y : JsValue) : Completion (option bool) :=
  px ← ToPrimitive h x;
  py ← ToPrimitive h y;
  Normal match px, py with
         | JStr a, JStr b => Some (String.ltb a b)
         | _, _ => num_lt (ToNumberPrimitive h px) (ToNumberPrimitive h py)
         end.

Definition js_lt (h : Host) (x y : JsValue) : Completion bool :=
  r ← isLessThan h x y; Normal (default false r).
Definition js_gt (h : Host) (x y : JsValue) : Completion bool :=
  r ← isLessThan h y x; Normal (default false r).
Definition js_le (h : Host) (x y : JsValue) : Completion bool :=
  r ← isLessThan h y x; Normal (negb (default true r)).
Definition js_ge (h : Host) (x y : JsValue) : Completion bool :=
  r ← isLessThan h x y; Normal (negb (default true r)).

Definition num_le (a b : JsNum) : bool := negb (default true (num_lt b a)).

(** ** Dates *)

(** A time value is a number of milliseconds since the epoch, or NaN
    ([None], an invalid date). *)
Definition TimeValue : Type := option Z.

Definition msPerDay : Z := 86400000.
Definition maxTime : Z := 8640000000000000.

Definition timeClipZ (t : Z) : TimeValue :=
  if (Z.abs t <=? maxTime)%Z then Some t else None.

Definition TimeClip (n : JsNum) : TimeValue :=
  match n with
  | Fin q =>
      if Qle_bool (Qabs q) (inject_Z maxTime)
      then Some (Z.quot (Qnum q) (Z.pos (Qden q)))
      else None
  | _ => None
  end.

Definition isLeapYear (y : Z) : bool :=
  ((y mod 4 =? 0) && (negb (y mod 100 =? 0) || (y mod 400 =? 0)))%Z.

Definition DayFromYear (y : Z) : Z :=
  (365 * (y - 1970) + (y - 1969) / 4 - (y - 1901) / 100 + (y - 1601) / 400)%Z.

Definition DaysInMonth (y m : Z) : Z :=
  (if m =? 2 then (if isLeapYear y then 29 else 28)
   else if (m =? 4) || (m =? 6) || (m =? 9) || (m =? 11) then 30
   else 31)%Z.

Fixpoint daysBefore (y : Z) (m : nat) : Z :=
  match m with
  | O => 0
  | S k => (daysBefore y k + DaysInMonth y (Z.of_nat m))%Z
  end.

(** The day number of the calendar date [y]-[m]-[d], months from 1. *)
Definition MakeDay (y m d : Z) : Z :=
  (DayFromYear y + daysBefore y (Z.to_nat (m - 1)) + (d - 1))%Z.

Definition digitsZ (s : string) : option Z := Z.of_nat <$> digits_from 0 s.

(** The date-only form [YYYY-MM-DD] of the date-time string format, with
    legal element values; its value is the day number. *)
Definition isoDateOnly (s : string) : option Z :=
  if (String.length s =? 10)%nat
     && bool_decide (String.get 4 s = Some "-"%char)
     && bool_decide (String.get 7 s = Some "-"%char)
  then
    y ← digitsZ (String.substring 0 4 s);
    m ← digitsZ (String.substring 5 2 s);
    d ← digitsZ (String.substring 8 2 s);
    if ((1 <=? m) && (m <=? 12) && (1 <=? d) && (d <=? DaysInMonth y m))%Z
    then Some (MakeDay y m d) else None
  else None.

(** The date-time forms [YYYY-MM-DDTHH:mm:ss], with an optional [.sss]
    and an optional [Z]: the time value the fields give when read as UTC,
    and whether the string ends in [Z]. *)
Definition isoDateTime (s : string) : option (Z * bool) :=
  let n := String.length s in
  if ((n =? 19) || (n =? 20) || (n =? 23) || (n =? 24))%nat
     && bool_decide (String.get 10 s = Some "T"%char)
     && bool_decide (String.get 13 s = Some ":"%char)
     && bool_decide (String.get 16 s = Some ":"%char)
  then
    day ← isoDateOnly (String.substring 0 10 s);
    hh ← digitsZ (String.substring 11 2 s);
    mm ← digitsZ (String.substring 14 2 s);
    ss ← digitsZ (String.substring 17 2 s);
    '(ms, utc) ← match String.substring 19 5 s with
                 | "" => Some (0%Z, false)
                 | "Z" => Some (0%Z, true)
                 | String "." frac =>
                     ms ← digitsZ (String.substring 0 3 frac);
                     match String.substring 3 2 frac with
                     | "" => Some (ms, false)
                     | "Z" => Some (ms, true)
                     | _ => None
                     end
                 | _ => None
                 end;
    if ((hh <=? 23) && (mm <=? 59) && (ss <=? 59))%Z
    then Some (day * msPerDay + hh * 3600000 + mm * 60000 + ss * 1000 + ms, utc)%Z
    else None
  else None.

(** [Date.parse]: a date-only string is midnight UTC of that day; a
    date-time string is local time unless it ends in [Z]; every other string
    (the other forms of the format, illegal element values, free text) is
    left to the host. *)
Definition DateParse (h : Host) (s : string) : TimeValue :=
  match isoDateOnly s with
  | Some day => Some (day * msPerDay)%Z
  | None =>
      match isoDateTime s with
      | Some (t, true) => Some t
      | Some (t, false) => Some (t - LocalTZA h)%Z
      | None => DateParseLegacy h s
      end
  end.

(** [new Date(v)]. *)
Definition newDate (h : Host) (v : JsValue) : Completion TimeValue :=
  p ← ToPrimitive h v;
  Normal match p with
         | JStr s => DateParse h s
         | _ => TimeClip (ToNumberPrimitive h p)
         end.

(** [d.setHours(hh, mm, ss, ms)]: the local day of [d] is kept, its time
    within the day is replaced.  The offset of the time zone is fixed. *)
Definition setHours (h : Host) (t : TimeValue) (hh mm ss ms : Z) : TimeValue :=
  match t with
  | None => None
  | Some t =>
      let day := ((t + LocalTZA h) / msPerDay)%Z in
      let time := (hh * 3600000 + mm * 60000 + ss * 1000 + ms)%Z in
      timeClipZ (day * msPerDay + time - LocalTZA h)
  end.

(** [a >= b] and [a <= b] on two Date objects: false when either is invalid. *)
Definition date_ge (a b : TimeValue) : bool :=
  match a, b with
  | Some x, Some y => (y <=? x)%Z
  | _, _ => false
  end.

Definition date_le (a b : TimeValue) : bool :=
  match a, b with
  | Some x, Some y => (x <=? y)%Z
  | _, _ => false
  end.

(** ** Control *)

(** [switch (x) { case k: return v; ... default: return d; }] on strings. *)
Fixpoint switch {A} (x : string) (cases : list (string * A)) (d : A) : A :=
  match cases with
  | [] => d
  | (k, v) :: rest => if String.eqb x k then v else switch x rest d
  end.

(** [l.every(p)]: stops at the first element that fails. *)
Fixpoint every {A} (p : A -> Completion bool) (l : list A) : Completion bool :=
  match l with
  | [] => Normal true
  | x :: t => b ← p x; if b : bool then every p t else Normal false
  end.

(** [l.filter(p)]: the elements that pass, in order. *)
Fixpoint filter {A} (p : A -> Completion bool) (l : list A) : Completion (list A) :=
  match l with
  | [] => Normal []
  | x :: t => b ← p x; rest ← filter p t; Normal (if b : bool then x :: rest else rest)
  end.

(** [v.toLowerCase()]: only a string has the method. *)
Definition callToLowerCase (v : JsValue) : Completion string :=
  match v with
  | JStr s => Normal (toLowerCase s)
  | _ => ThrowTypeError
  end.

(** [v.includes(x)] on a value that passed [Array.isArray]. *)
Definition callIncludes (v x : JsValue) : bool :=
  match v with
  | JArr l => arrayIncludes l x
  | _ => false
  end.

(** [v.some(p)]: only an array has the method. *)
Definition callSome (v : JsValue) (p : JsValue -> bool) : Completion bool :=
  match v with
  | JArr l => Normal (existsb p l)
  | _ => ThrowTypeError
  end.

(** [l.find(p)]: the first element that passes, [None] for undefined. *)
Fixpoint callFind (p : JsValue -> Completion bool) (l : list JsValue)
    : Completion (option JsValue) :=
  match l with
  | [] => Normal None
  | x :: t => b ← p x; if b : bool then Normal (Some x) else callFind p t
  end.

End Js.

(** * The data model ([src/types]) *)

Module Types.
Import Js.

Inductive FieldType : Type :=
| text
| number
| date
| amount
| singleSelect
| multiSelect
| boolean.

(** An operator is a string at run time; the union type [FilterOperator]
    does not survive compilation, and the evaluators switch on the string. *)
Definition FilterOperator : Type := string.

Record FieldDefinition : Type := {
  key : string;
  label : string;
  type : FieldType;
  operators : list FilterOperator;
  options : option (list string);
  getValue : option (JsValue -> JsValue);
}.

Record FilterCondition : Type := {
  id : string;
  field : string;
  operator : FilterOperator;
  value : JsValue;
}.

End Types.

(** * The field schema ([src/config/fieldDefinitions.ts]) *)

Module FieldDefinitions.
Import Js Types.

(** The loop shared by [getNestedValue] and [getFieldValue]:
    [value = value?.[key]; if (value === undefined || value === null) return null]. *)
Fixpoint walk (keys : list string) (value : JsValue) : JsValue :=
  match keys with
  | [] => value
  | key :: rest =>
      let value := getPropOpt value key in
      if nullish value then JNull else walk rest value
  end.

Definition getNestedValue (record : JsValue) (path : string) : JsValue :=
  walk (split "." path) record.

Definition textOperators : list FilterOperator :=
  ["equals"; "contains"; "startsWith"; "endsWith"; "doesNotContain"].

Definition numberOperators : list FilterOperator :=
  ["equals"; "greaterThan"; "lessThan"; "greaterThanOrEqual"; "lessThanOrEqual"].

Definition plain (k l : string) (t : FieldType) (ops : list FilterOperator) : FieldDefinition :=
  {| key := k; label := l; type := t; operators := ops; options := None; getValue := None |}.

Definition select (k l : string) (t : FieldType) (ops : list FilterOperator)
    (opts : list string) : FieldDefinition :=
  {| key := k; label := l; type := t; operators := ops; options := Some opts; getValue := None |}.

Definition nested (k l : string) (opts : list string) : FieldDefinition :=
  {| key := k; label := l; type := singleSelect; operators := ["is"; "isNot"];
     options := Some opts;
     getValue := Some (fun record => getNestedValue record k) |}.

Definition departmentOptions : list string :=
  ["Engineering"; "Marketing"; "Sales"; "HR"; "Finance"; "Operations"; "Product"; "Design"].

Definition roleOptions : list string :=
  ["Senior Developer"; "Junior Developer"; "Product Manager"; "Designer";
   "Marketing Manager"; "Sales Representative"; "HR Specialist"; "Finance Analyst";
   "Operations Manager"; "QA Engineer"].

Definition skillsOptions : list string :=
  ["React"; "TypeScript"; "Node.js"; "GraphQL"; "Python"; "Java"; "AWS"; "Docker";
   "Kubernetes"; "MongoDB"; "PostgreSQL"; "Redis"; "Vue.js"; "Angular"; "Next.js"].

Definition cityOptions : list string :=
  ["San Francisco"; "New York"; "Los Angeles"; "Chicago"; "Seattle"; "Austin"; "Boston"; "Denver"].

Definition stateOptions : list string :=
  ["CA"; "NY"; "TX"; "WA"; "IL"; "MA"; "CO"; "FL"].

Definition fieldDefinitions : gmap string FieldDefinition :=
  list_to_map
    [ ("name", plain "name" "Name" text textOperators);
      ("email", plain "email" "Email" text textOperators);
      ("department", select "department" "Department" singleSelect ["is"; "isNot"] departmentOptions);
      ("role", select "role" "Role" singleSelect ["is"; "isNot"] roleOptions);
      ("projects", plain "projects" "Projects" number numberOperators);
      ("performanceRating", plain "performanceRating" "Performance Rating" number numberOperators);
      ("salary", plain "salary" "Salary" amount ["between"]);
      ("joinDate", plain "joinDate" "Join Date" date ["between"]);
      ("lastReview", plain "lastReview" "Last Review" date ["between"]);
      ("isActive", plain "isActive" "Active Status" boolean ["is"]);
      ("skills", select "skills" "Skills" multiSelect ["in"; "notIn"] skillsOptions);
      ("address.city", nested "address.city" "City" cityOptions);
      ("address.state", nested "address.state" "State" stateOptions) ].

(** [fieldDefinitions[key]], for a schema [cfg]: the entry stored under
    [key], if any.  (A key naming a member of [Object.prototype] is outside
    the model.) *)
Definition getFieldDefinition (cfg : gmap string FieldDefinition) (key : string)
    : option FieldDefinition :=
  cfg !! key.

(** The entries of [fieldDefinitions] in the order they are written, which
    is the order [Object.keys] lists them in. *)
Definition fieldDefinitionEntries : list (string * FieldDefinition) :=
  [ ("name", plain "name" "Name" text textOperators);
    ("email", plain "email" "Email" text textOperators);
    ("department", select "department" "Department" singleSelect ["is"; "isNot"] departmentOptions);
    ("role", select "role" "Role" singleSelect ["is"; "isNot"] roleOptions);
    ("projects", plain "projects" "Projects" number numberOperators);
    ("performanceRating", plain "performanceRating" "Performance Rating" number numberOperators);
    ("salary", plain "salary" "Salary" amount ["between"]);
    ("joinDate", plain "joinDate" "Join Date" date ["between"]);
    ("lastReview", plain "lastReview" "Last Review" date ["between"]);
    ("isActive", plain "isActive" "Active Status" boolean ["is"]);
    ("skills", select "skills" "Skills" multiSelect ["in"; "notIn"] skillsOptions);
    ("address.city", nested "address.city" "City" cityOptions);
    ("address.state", nested "address.state" "State" stateOptions) ].

(** [Object.keys(fieldDefinitions)]. *)
Definition getAvailableFields : list string := fieldDefinitionEntries.*1.

(** The operator types of [src/types]: the operators each field type has. *)
Definition operatorsOf (t : FieldType) : list FilterOperator :=
  match t with
  | text => textOperators
  | number => numberOperators
  | date => ["between"]
  | amount => ["between"]
  | singleSelect => ["is"; "isNot"]
  | multiSelect => ["in"; "notIn"]
  | boolean => ["is"]
  end.

(** The string a [FieldType] is at run time. *)
Definition typeName (t : FieldType) : string :=
  match t with
  | text => "text"
  | number => "number"
  | date => "date"
  | amount => "amount"
  | singleSelect => "singleSelect"
  | multiSelect => "multiSelect"
  | boolean => "boolean"
  end.

End FieldDefinitions.

(** * The engine ([src/utils/filterUtils.ts]) *)

Module FilterUtils.
Import Js Types FieldDefinitions.

Section Engine.

(** The host the code runs on and the schema it consults, which the source
    reaches through the module [config/fieldDefinitions]. *)
Variable h : Host.
Variable cfg : gmap string FieldDefinition.

Definition getFieldValue (record : JsValue) (fieldKey : string) : JsValue :=
  match getFieldDefinition cfg fieldKey ≫= getValue with
  | Some extract => extract record
  | None => walk (split "." fieldKey) record
  end.

Definition applyTextFilter (recordValue : JsValue) (operator : string)
    (filterValue : JsValue) : Completion bool :=
  if negb (truthy recordValue) then Normal false
  else
    recordLower ← callToLowerCase recordValue;
    filterLower ← callToLowerCase filterValue;
    Normal (switch operator
      [ ("equals", String.eqb recordLower filterLower);
        ("contains", includes recordLower filterLower);
        ("startsWith", startsWith recordLower filterLower);
        ("endsWith", endsWith recordLower filterLower);
        ("doesNotContain", negb (includes recordLower filterLower)) ]
      false).

Definition applyNumberFilter (recordValue : JsValue) (operator : string)
    (filterValue : JsValue) : Completion bool :=
  if nullish recordValue then Normal false
  else
    switch operator
      [ ("equals", Normal (strictEq recordValue filterValue));
        ("greaterThan", js_gt h recordValue filterValue);
        ("lessThan", js_lt h recordValue filterValue);
        ("greaterThanOrEqual", js_ge h recordValue filterValue);
        ("lessThanOrEqual", js_le h recordValue filterValue) ]
      (Normal false).

Definition applyDateFilter (recordValue filterValue : JsValue) : Completion bool :=
  if negb (truthy recordValue) then Normal false
  else
    recordDate ← newDate h recordValue;
    from ← getProp filterValue "from";
    fromDate ← newDate h from;
    to ← getProp filterValue "to";
    toDate ← newDate h to;
    let fromDate := setHours h fromDate 0 0 0 0 in
    let toDate := setHours h toDate 23 59 59 999 in
    Normal (date_ge recordDate fromDate && date_le recordDate toDate).

Definition applyAmountFilter (recordValue filterValue : JsValue) : Completion bool :=
  if nullish recordValue then Normal false
  else
    min ← getProp filterValue "min";
    above ← js_ge h recordValue min;
    if above : bool
    then max ← getProp filterValue "max"; js_le h recordValue max
    else Normal false.

Definition applySingleSelectFilter (recordValue : JsValue) (operator : string)
    (filterValue : JsValue) : Completion bool :=
  if negb (truthy recordValue) then Normal false
  else
    Normal (switch operator
      [ ("is", strictEq recordValue filterValue);
        ("isNot", negb (strictEq recordValue filterValue)) ]
      false).

Definition applyMultiSelectFilter (recordValue : JsValue) (operator : string)
    (filterValue : JsValue) : Completion bool :=
  if negb (truthy recordValue) || negb (isArray recordValue) then Normal false
  else
    switch operator
      [ ("in", callSome filterValue (fun val => callIncludes recordValue val));
        ("notIn", b ← callSome filterValue (fun val => callIncludes recordValue val);
                  Normal (negb b)) ]
      (Normal false).

Definition applyBooleanFilter (recordValue filterValue : JsValue) : Completion bool :=
  Normal (strictEq recordValue filterValue).

(** The [default] branch of the switch on [fieldDef.type] is not reachable:
    [FieldType] is closed. *)
Definition applyFilterCondition (record : JsValue) (condition : FilterCondition)
    : Completion bool :=
  let recordValue := getFieldValue record (field condition) in
  match getFieldDefinition cfg (field condition) with
  | None => Normal false
  | Some fieldDef =>
      if nullish recordValue then Normal false
      else
        match type fieldDef with
        | text => applyTextFilter recordValue (operator condition) (value condition)
        | number => applyNumberFilter recordValue (operator condition) (value condition)
        | date => applyDateFilter recordValue (value condition)
        | amount => applyAmountFilter recordValue (value condition)
        | singleSelect => applySingleSelectFilter recordValue (operator condition) (value condition)
        | multiSelect => applyMultiSelectFilter recordValue (operator condition) (value condition)
        | boolean => applyBooleanFilter recordValue (value condition)
        end
  end.

Definition filterEmployees (employees : list JsValue) (filters : list FilterCondition)
    : Completion (list JsValue) :=
  if (List.length filters =? 0)%nat then Normal employees
  else Js.filter (fun record => every (fun condition => applyFilterCondition record condition) filters)
         employees.

Definition validateFilterCondition (condition : FilterCondition) : bool :=
  match getFieldDefinition cfg (field condition) with
  | None => false
  | Some fieldDef =>
      if negb (bool_decide (operator condition ∈ operators fieldDef)) then false
      else
        let value := value condition in
        match type fieldDef with
        | text | singleSelect =>
            (* typeof value === 'string' && value.trim().length > 0 *)
            match value with
            | JStr s => (0 <? String.length (trim s))%nat
            | _ => false
            end
        | number =>
            (* typeof value === 'number' && !isNaN(value) *)
            match value with
            | JNum n => negb (num_isNaN n)
            | _ => false
            end
        | date =>
            String.eqb (typeof value) "object"
            && negb (strictEq value JNull)
            && hasProp "from" value
            && hasProp "to" value
            && String.eqb (typeof (ownProp value "from")) "string"
            && String.eqb (typeof (ownProp value "to")) "string"
        | amount =>
            String.eqb (typeof value) "object"
            && negb (strictEq value JNull)
            && hasProp "min" value
            && hasProp "max" value
            && match ownProp value "min", ownProp value "max" with
               | JNum min, JNum max => num_le min max
               | _, _ => false
               end
        | multiSelect =>
            (* Array.isArray(value) && value.length > 0 *)
            match value with
            | JArr l => (0 <? List.length l)%nat
            | _ => false
            end
        | boolean =>
            (* typeof value === 'boolean' *)
            match value with
            | JBool _ => true
            | _ => false
            end
        end
  end.

End Engine.

End FilterUtils.

(** * The callers *)

(** ** [App]: the list the table is given *)

Module App.
Import Js Types FieldDefinitions FilterUtils.

(** [filteredEmployees]: the filters that pass the validator are applied. *)
Definition filteredEmployees (h : Host) (cfg : gmap string FieldDefinition)
    (employees : list JsValue) (filters : list FilterCondition) : Completion (list JsValue) :=
  let validFilters := List.filter (fun filter => validateFilterCondition cfg filter) filters in
  filterEmployees h cfg employees validFilters.

End App.

(** ** [components/FilterBuilder.tsx] and [components/FilterRow.tsx] *)

Module FilterBuilder.
Import Js Types FieldDefinitions.

Definition getDefaultValue (fieldType : string) : JsValue :=
  switch fieldType
    [ ("text", JStr "");
      ("singleSelect", JStr "");
      ("number", JInt 0);
      ("date", JObj [("from", JStr ""); ("to", JStr "")]);
      ("amount", JObj [("min", JInt 0); ("max", JInt 0)]);
      ("multiSelect", JArr []);
      ("boolean", JBool true) ]
    JNull.

(** [createEmptyFilter], given the identifier that [uuidv4()] draws. *)
Definition createEmptyFilter (uuid : string) : FilterCondition :=
  let firstField := hd "" getAvailableFields in  (* the list is not empty *)
  let fieldDef := getFieldDefinition fieldDefinitions firstField in
  {| id := uuid;
     field := firstField;
     operator :=
       (* fieldDef?.operators[0] || 'equals' *)
       match fieldDef ≫= (fun d => head (operators d)) with
       | Some op => if String.eqb op "" then "equals" else op
       | None => "equals"
       end;
     value :=
       (* getDefaultValue(fieldDef?.type || 'text') *)
       getDefaultValue (default "text" (typeName <$> (type <$> fieldDef))) |}.

(** The list each handler passes to [updateFilters]. *)
Definition handleAddFilter (localFilters : list FilterCondition) (uuid : string)
    : list FilterCondition :=
  localFilters ++ [createEmptyFilter uuid].

Definition handleUpdateFilter (localFilters : list FilterCondition)
    (updatedFilter : FilterCondition) : list FilterCondition :=
  map (fun f => if String.eqb (id f) (id updatedFilter) then updatedFilter else f) localFilters.

Definition handleRemoveFilter (localFilters : list FilterCondition) (filterId : string)
    : list FilterCondition :=
  List.filter (fun f => negb (String.eqb (id f) filterId)) localFilters.

(** [FilterRow.handleFieldChange]: the row after another field is chosen;
    an unknown field leaves it as it is.  Every field of the schema declares
    an operator, so [operators[0]] is defined. *)
Definition handleFieldChange (localCondition : FilterCondition) (newField : string)
    : FilterCondition :=
  match getFieldDefinition fieldDefinitions newField with
  | Some newFieldDef =>
      {| id := id localCondition;
         field := newField;
         operator := hd "" (operators newFieldDef);
         value := getDefaultValue (typeName (type newFieldDef)) |}
  | None => localCondition
  end.

End FilterBuilder.

(** ** [components/DataTable.tsx] *)

Module DataTable.
Import Js.

Definition getDisplayValue (record : JsValue) (field : string) : Completion JsValue :=
  if String.eqb field "address.city" then
    address ← getProp record "address"; getProp address "city"
  else if String.eqb field "address.state" then
    address ← getProp record "address"; getProp address "state"
  else getProp record field.

End DataTable.

(** ** [api/mockApi.ts] *)

Module MockApi.
Import Js.

(** What the promise of [getEmployeeById] resolves to:
    [employees.find((emp) => emp.id === id) || null]. *)
Definition getEmployeeById (employees : list JsValue) (id : JsNum) : Completion JsValue :=
  found ← callFind (fun emp => v ← getProp emp "id"; Normal (strictEq v (JNum id))) employees;
  Normal match found with
         | Some emp => if truthy emp then emp else JNull
         | None => JNull
         end.

End MockApi.

(** * Properties of the engine *)

Import Js Types FieldDefinitions FilterUtils.

(** ** Sample data *)

(** A host in the time zone [tz], whose number grammar and legacy date
    parser recognise nothing; the properties below hold for every host. *)
Definition hostAt (tz : Z) : Host :=
  {| LocalTZA := tz;
     StringToNumber := fun _ => NaN;
     NumberToString := fun _ => "";
     DateParseLegacy := fun _ => None |}.

(** Pacific Standard Time, eight hours behind UTC. *)
Definition pacific : Host := hostAt (-28800000).

(** An [Employee] as [generateEmployee] builds them. *)
Definition employee1 : JsValue :=
  JObj [ ("id", JInt 1);
         ("name", JStr "Jane Miller");
         ("email", JStr "jane.miller@company.com");
         ("department", JStr "Engineering");
         ("role", JStr "QA Engineer");
         ("salary", JInt 90000);
         ("joinDate", JStr "2024-03-15");
         ("isActive", JBool true);
         ("skills", JArr [JStr "React"; JStr "Docker"]);
         ("address", JObj [("city", JStr "Austin"); ("state", JStr "TX"); ("country", JStr "USA")]);
         ("projects", JInt 3);
         ("lastReview", JStr "2024-06-01");
         ("performanceRating", JNum (Fin (37 # 10))) ].

Definition condition (f : string) (op : FilterOperator) (v : JsValue) : FilterCondition :=
  {| id := "filter-1"; field := f; operator := op; value := v |}.

(** A complete filter row the record fails, and a row whose value is still
    [null], which the type [FilterValue] allows. *)
Definition inSales : FilterCondition := condition "department" "is" (JStr "Sales").
Definition nameUnset : FilterCondition := condition "name" "contains" JNull.

(** The condition [c] with its operator replaced. *)
Definition withOperator (c : FilterCondition) (op : FilterOperator) : FilterCondition :=
  {| id := id c; field := field c; operator := op; value := value c |}.

(** Two records, the second without an address. *)
Definition twoRecords : list JsValue :=
  [ employee1;
    JObj [("id", JInt 2); ("name", JStr "Mark Lee"); ("department", JStr "Sales");
          ("salary", JInt 60000); ("joinDate", JStr "2023-11-02"); ("isActive", JBool false);
          ("skills", JArr [JStr "Java"]); ("projects", JInt 0)] ].

(** ** Predicates of the statements *)

(** The record holds a string, or nothing, under every text field. *)
Definition textFieldsAreStrings (cfg : gmap string FieldDefinition) (record : JsValue) : Prop :=
  forall k fieldDef, cfg !! k = Some fieldDef -> type fieldDef = text ->
    truthy (getFieldValue cfg record k) = false
    \/ isString (getFieldValue cfg record k) = true.

(** The string is made of white space only. *)
Definition allWhite (s : string) : bool := forallb is_white (list_ascii_of_string s).

(** The value converts to a primitive: it is one, or an array or object
    whose [toString] can be called. *)
Definition converts (h : Host) (v : JsValue) : Prop := returns (ToPrimitive h v).

(** The operators of the number evaluator that compare with [<] and [>]. *)
Definition relationalOperators : list FilterOperator :=
  ["greaterThan"; "lessThan"; "greaterThanOrEqual"; "lessThanOrEqual"].

(** Under every field of the schema the record holds a value that converts. *)
Definition fieldsConvert (h : Host) (cfg : gmap string FieldDefinition) (record : JsValue)
    : Prop :=
  forall k fieldDef, cfg !! k = Some fieldDef -> converts h (getFieldValue cfg record k).

(** No condition of the list is on a field named like an inherited member. *)
Definition ownFields (filters : list FilterCondition) : Prop :=
  forall c, c ∈ filters -> field c ∉ objectPrototypeKeys.

(** ** Completions and the array methods *)

Ltac cstep := unfold mbind, Completion_bind in *; simpl in *.

(** Closed decidable goals, such as membership in a list of operators. *)
Ltac by_decide := apply (bool_decide_unpack _); vm_compute; exact I.

Lemma returns_Normal {A} (a : A) : returns (Normal a).
Proof. by exists a. Qed.

Lemma not_returns_Throw {A} : ~ returns (@ThrowTypeError A).
Proof. by intros [a Ha]. Qed.

#[local] Hint Resolve returns_Normal : core.

Section ArrayMethods.
Context {A : Type}.
Implicit Types (p q : A -> Completion bool) (l : list A).

Lemma filter_ext_in p q l :
  (forall x, x ∈ l -> p x = q x) -> Js.filter p l = Js.filter q l.
Proof.
  induction l as [|x t IH]; intros Hpq; [done|].
  simpl. rewrite (Hpq x) by left. rewrite IH; [done|].
  intros y Hy. apply Hpq. by right.
Qed.

Lemma filter_returns p l :
  (forall x, x ∈ l -> returns (p x)) -> returns (Js.filter p l).
Proof.
  induction l as [|x t IH]; intros Hp; [by eexists|].
  destruct (Hp x) as [b Hb]; [left|].
  destruct IH as [rest Hrest]; [intros y Hy; apply Hp; by right|].
  simpl. rewrite Hb. cstep. rewrite Hrest. by eexists.
Qed.

(** An element kept by [filter] passed the test, and the kept elements
    are kept again. *)
Lemma filter_kept p l l' x :
  Js.filter p l = Normal l' -> x ∈ l' -> x ∈ l /\ p x = Normal true.
Proof.
  revert l'. induction l as [|y t IH]; intros l'; simpl.
  - intros [= <-] Hx. by apply elem_of_nil in Hx.
  - destruct (p y) as [b|] eqn:Hy; cstep; [|done].
    destruct (Js.filter p t) as [rest|] eqn:Ht; [|done].
    intros [= <-] Hx. destruct b.
    + apply elem_of_cons in Hx as [->|Hx]; [split; [left|done]|].
      destruct (IH rest eq_refl Hx). split; [by right|done].
    + destruct (IH rest eq_refl Hx). split; [by right|done].
Qed.

Lemma filter_fixed p l l' :
  Js.filter p l = Normal l' -> Js.filter p l' = Normal l'.
Proof.
  revert l'. induction l as [|y t IH]; intros l'; simpl.
  - by intros [= <-].
  - destruct (p y) as [b|] eqn:Hy; cstep; [|done].
    destruct (Js.filter p t) as [rest|] eqn:Ht; [|done].
    intros [= <-]. destruct b; [|by apply IH].
    simpl. rewrite Hy. cstep. by rewrite (IH rest eq_refl).
Qed.

(** A rejected element is dropped. *)
Lemma filter_dropped p l l' x :
  Js.filter p l = Normal l' -> p x = Normal false -> x ∉ l'.
Proof.
  intros Hf Hx Hin. destruct (filter_kept _ _ _ _ Hf Hin) as [_ Hp]. congruence.
Qed.

Lemma every_false_elem (p : A -> Completion bool) l x :
  returns (every p l) -> x ∈ l -> p x = Normal false -> every p l = Normal false.
Proof.
  induction l as [|y t IH]; intros Hr Hin Hx.
  - by apply elem_of_nil in Hin.
  - simpl in *. destruct (p y) as [[]|] eqn:Hy; cstep; [|done|by destruct Hr].
    apply elem_of_cons in Hin as [->|Hin]; [congruence|]. by apply IH.
Qed.

End ArrayMethods.

Lemma switch_default {A} (x : string) (cases : list (string * A)) (d : A) :
  x ∉ cases.*1 -> switch x cases d = d.
Proof.
  induction cases as [|[k v] rest IH]; intros Hx; [done|].
  simpl. destruct (String.eqb_spec x k) as [->|_].
  - exfalso. apply Hx. left.
  - apply IH. intros Hin. apply Hx. by right.
Qed.

(** ** The accessor *)

(** A missing or null path segment stops the walk with [null]. *)
Lemma walk_missing_segment (key : string) (rest : list string) (v : JsValue) :
  nullish (getPropOpt v key) = true -> walk (key :: rest) v = JNull.
Proof. intros Hn. simpl. by rewrite Hn. Qed.

(** The walk never yields [undefined] from a non-empty path. *)
Lemma walk_not_undefined (keys : list string) (v : JsValue) :
  keys <> [] -> walk keys v <> JUndefined.
Proof.
  revert v. induction keys as [|k rest IH]; intros v Hne; [done|].
  simpl. destruct (nullish (getPropOpt v k)) eqn:Hn; [done|].
  destruct rest as [|k' rest']; [|by apply IH].
  simpl. intros Hu. by rewrite Hu in Hn.
Qed.

(** A custom accessor is used verbatim. *)
Lemma getFieldValue_accessor cfg (fieldDef : FieldDefinition) extract record fieldKey :
  cfg !! fieldKey = Some fieldDef -> getValue fieldDef = Some extract ->
  getFieldValue cfg record fieldKey = extract record.
Proof. intros Hd Hg. unfold getFieldValue, getFieldDefinition. rewrite Hd. simpl. by rewrite Hg. Qed.

(** ** The filter engine *)

(** C3. Empty-filter identity: with no condition, [filterEmployees] returns
    the records it was given, all of them and in the same order. *)
Theorem filterEmployees_no_filters (h : Host) (cfg : gmap string FieldDefinition)
    (R : list JsValue) :
  filterEmployees h cfg R [] = Normal R.
Proof. reflexivity. Qed.

(** C9. Idempotence: filtering the result of a filter by the same
    conditions gives that result again (and a filter that throws, throws). *)
Theorem filterEmployees_idempotent (h : Host) (cfg : gmap string FieldDefinition)
    (R : list JsValue) (C : list FilterCondition) :
  (L ← filterEmployees h cfg R C; filterEmployees h cfg L C) = filterEmployees h cfg R C.
Proof.
  destruct C as [|c C']; [done|].
  unfold filterEmployees. change (List.length (c :: C') =? 0)%nat with false. cbv iota.
  destruct (Js.filter _ R) as [L|] eqn:HL; [|done].
  apply filter_fixed in HL. by cstep.
Qed.

(** C7. Null-safety: when the value resolved for the condition's field is
    null or undefined, whether the field is missing, a path segment is, or
    a custom accessor returned null, the condition does not match. *)
Theorem applyFilterCondition_null_never_matches (h : Host) (cfg : gmap string FieldDefinition)
    (record : JsValue) (c : FilterCondition) :
  nullish (getFieldValue cfg record (field c)) = true ->
  applyFilterCondition h cfg record c = Normal false.
Proof.
  intros Hn. unfold applyFilterCondition.
  destruct (getFieldDefinition cfg (field c)); [|done]. by rewrite Hn.
Qed.

(** A record without [address]: the accessor of [address.city] walks the
    path and stops at the missing segment. *)
Lemma applyFilterCondition_null_never_matches_witness :
  getFieldValue fieldDefinitions (JObj [("name", JStr "Jane Miller")]) "address.city" = JNull
  /\ applyFilterCondition pacific fieldDefinitions (JObj [("name", JStr "Jane Miller")])
       (condition "address.city" "isNot" (JStr "Austin")) = Normal false.
Proof.
  split; [by vm_compute|].
  apply (applyFilterCondition_null_never_matches pacific fieldDefinitions
           (JObj [("name", JStr "Jane Miller")]) (condition "address.city" "isNot" (JStr "Austin"))).
  by vm_compute.
Defined.

(** Such a record is absent from every filtered result. *)
Lemma filterEmployees_drops_null (h : Host) (cfg : gmap string FieldDefinition)
    (R L : list JsValue) (C : list FilterCondition) (record : JsValue) (c : FilterCondition) :
  c ∈ C -> nullish (getFieldValue cfg record (field c)) = true ->
  filterEmployees h cfg R C = Normal L -> record ∉ L.
Proof.
  intros Hc Hn. unfold filterEmployees.
  destruct C as [|c0 C']; [by apply elem_of_nil in Hc|].
  change (List.length (c0 :: C') =? 0)%nat with false. cbv iota.
  intros HL Hin. destruct (filter_kept _ _ _ _ HL Hin) as [_ Hev].
  assert (every (fun condition => applyFilterCondition h cfg record condition) (c0 :: C')
          = Normal false) as Hf.
  { apply every_false_elem with c; [rewrite Hev; eauto|done|].
    unfold applyFilterCondition. destruct (getFieldDefinition cfg (field c)); [|done]. by rewrite Hn. }
  congruence.
Qed.

(** The order of two conditions is observable: [every] stops at the first
    condition that fails, so the unset row is reached in one order only. *)
Lemma filterEmployees_order_observable :
  filterEmployees pacific fieldDefinitions [employee1] [inSales; nameUnset] = Normal []
  /\ filterEmployees pacific fieldDefinitions [employee1] [nameUnset; inSales] = ThrowTypeError
  /\ filterEmployees pacific fieldDefinitions [employee1] [inSales; nameUnset]
     <> filterEmployees pacific fieldDefinitions [employee1] [nameUnset; inSales].
Proof. by vm_compute. Qed.

(** C8 (amended). AND commutativity: when neither condition throws on a
    record of [R], both orders return, and return the same records. *)
Theorem filterEmployees_comm (h : Host) (cfg : gmap string FieldDefinition)
    (R : list JsValue) (c1 c2 : FilterCondition) :
  (forall r, r ∈ R -> returns (applyFilterCondition h cfg r c1)) ->
  (forall r, r ∈ R -> returns (applyFilterCondition h cfg r c2)) ->
  filterEmployees h cfg R [c1; c2] = filterEmployees h cfg R [c2; c1]
  /\ returns (filterEmployees h cfg R [c1; c2]).
Proof.
  intros H1 H2. unfold filterEmployees. simpl. split.
  - apply filter_ext_in. intros r Hr.
    destruct (H1 r Hr) as [b1 ->], (H2 r Hr) as [b2 ->]. cstep. by destruct b1, b2.
  - apply filter_returns. intros r Hr.
    destruct (H1 r Hr) as [b1 ->], (H2 r Hr) as [b2 ->]. cstep. destruct b1, b2; eauto.
Qed.

Lemma filterEmployees_comm_witness :
  filterEmployees pacific fieldDefinitions [employee1]
    [inSales; condition "name" "contains" (JStr "jane")]
  = filterEmployees pacific fieldDefinitions [employee1]
      [condition "name" "contains" (JStr "jane"); inSales]
  /\ returns (filterEmployees pacific fieldDefinitions [employee1]
                [inSales; condition "name" "contains" (JStr "jane")]).
Proof.
  apply (filterEmployees_comm pacific fieldDefinitions [employee1]
           inSales (condition "name" "contains" (JStr "jane")));
    intros r Hr; apply list_elem_of_singleton in Hr; subst r; vm_compute; eauto.
Defined.

(** Two orders that both return always agree. *)
Lemma filterEmployees_comm_when_returning (h : Host) (cfg : gmap string FieldDefinition)
    (R L1 L2 : list JsValue) (c1 c2 : FilterCondition) :
  filterEmployees h cfg R [c1; c2] = Normal L1 ->
  filterEmployees h cfg R [c2; c1] = Normal L2 ->
  L1 = L2.
Proof.
  unfold filterEmployees. simpl. revert L1 L2.
  induction R as [|r R IH]; intros L1 L2; simpl; [congruence|].
  destruct (applyFilterCondition h cfg r c1) as [b1|] eqn:E1,
           (applyFilterCondition h cfg r c2) as [b2|] eqn:E2; cstep;
    repeat match goal with
           | b : bool |- _ => destruct b; cstep
           end; try done;
    destruct (Js.filter _ R) as [A1|] eqn:F1; try done;
    destruct (Js.filter _ R) as [A2|] eqn:F2 in |- *; try done;
    intros [= <-] [= <-]; by rewrite (IH A1 A2).
Qed.

(** ** The evaluators: when they return *)

Lemma converts_primitive h v :
  match v with JArr _ | JObj _ => False | _ => True end -> ToPrimitive h v = Normal v.
Proof. by destruct v. Qed.

Lemma isLessThan_returns h x y :
  returns (isLessThan h x y) <-> converts h x /\ converts h y.
Proof.
  unfold isLessThan, converts.
  destruct (ToPrimitive h x), (ToPrimitive h y); cstep; split; eauto;
    try (by intros []); intros [[] []]; done.
Qed.

Lemma js_lt_returns h x y : returns (js_lt h x y) <-> converts h x /\ converts h y.
Proof.
  rewrite <- isLessThan_returns. unfold js_lt.
  destruct (isLessThan h x y); cstep; split; eauto; by intros [].
Qed.

Lemma js_gt_returns h x y : returns (js_gt h x y) <-> converts h x /\ converts h y.
Proof.
  rewrite (and_comm (converts h x)), <- isLessThan_returns. unfold js_gt.
  destruct (isLessThan h y x); cstep; split; eauto; by intros [].
Qed.

Lemma js_le_returns h x y : returns (js_le h x y) <-> converts h x /\ converts h y.
Proof.
  rewrite (and_comm (converts h x)), <- isLessThan_returns. unfold js_le.
  destruct (isLessThan h y x); cstep; split; eauto; by intros [].
Qed.

Lemma js_ge_returns h x y : returns (js_ge h x y) <-> converts h x /\ converts h y.
Proof.
  rewrite <- isLessThan_returns. unfold js_ge.
  destruct (isLessThan h x y); cstep; split; eauto; by intros [].
Qed.

Lemma newDate_returns h v : returns (newDate h v) <-> converts h v.
Proof.
  unfold newDate, converts. destruct (ToPrimitive h v); cstep; split; eauto; by intros [].
Qed.

(** The number evaluator throws exactly when it compares, with [<] or [>],
    a value that does not convert. *)
Lemma applyNumberFilter_returns_iff h rv op fv :
  returns (applyNumberFilter h rv op fv)
  <-> nullish rv = true \/ op ∉ relationalOperators \/ (converts h rv /\ converts h fv).
Proof.
  unfold applyNumberFilter. destruct (nullish rv); [split; eauto|].
  destruct (decide (op ∈ relationalOperators)) as [Hin|Hnot].
  - assert (returns (switch op
              [ ("equals", Normal (strictEq rv fv)); ("greaterThan", js_gt h rv fv);
                ("lessThan", js_lt h rv fv); ("greaterThanOrEqual", js_ge h rv fv);
                ("lessThanOrEqual", js_le h rv fv) ] (Normal false))
            <-> converts h rv /\ converts h fv) as ->.
    { repeat (apply elem_of_cons in Hin as [->|Hin]); [..|by apply elem_of_nil in Hin];
        simpl; [apply js_gt_returns|apply js_lt_returns|apply js_ge_returns|apply js_le_returns]. }
    split; [by right; right|]. by intros [|[|]].
  - split; [by intros _; right; left|]. intros _. simpl.
    destruct (String.eqb_spec op "equals"); [eauto|].
    destruct (String.eqb_spec op "greaterThan") as [->|_];
      [exfalso; apply Hnot; apply (bool_decide_unpack _); by vm_compute|].
    destruct (String.eqb_spec op "lessThan") as [->|_];
      [exfalso; apply Hnot; apply (bool_decide_unpack _); by vm_compute|].
    destruct (String.eqb_spec op "greaterThanOrEqual") as [->|_];
      [exfalso; apply Hnot; apply (bool_decide_unpack _); by vm_compute|].
    destruct (String.eqb_spec op "lessThanOrEqual") as [->|_];
      [exfalso; apply Hnot; apply (bool_decide_unpack _); by vm_compute|].
    eauto.
Qed.

Lemma applySingleSelectFilter_returns rv op fv : returns (applySingleSelectFilter rv op fv).
Proof. unfold applySingleSelectFilter. destruct (truthy rv); simpl; eauto. Qed.

Lemma applyBooleanFilter_returns rv fv : returns (applyBooleanFilter rv fv).
Proof. unfold applyBooleanFilter. eauto. Qed.

Lemma callToLowerCase_returns v : returns (callToLowerCase v) <-> isString v = true.
Proof. destruct v; simpl; split; intros H; eauto; try done; by destruct H. Qed.

Lemma applyTextFilter_returns_iff rv op fv :
  returns (applyTextFilter rv op fv)
  <-> truthy rv = false \/ (isString rv = true /\ isString fv = true).
Proof.
  unfold applyTextFilter. destruct (truthy rv) eqn:Ht; simpl.
  - split.
    + intros Hr. right. destruct rv; cstep; try by destruct Hr.
      destruct fv; cstep; by destruct Hr.
    + intros [|[Hr Hf]]; [done|]. destruct rv; try done. destruct fv; try done. cstep. eauto.
  - split; eauto.
Qed.

Lemma getProp_returns v key : returns (getProp v key) <-> nullish v = false.
Proof.
  unfold getProp. destruct (nullish v); split; intros H; eauto; try done. by destruct H.
Qed.

(** The date evaluator throws exactly when a value it passes to [new Date]
    does not convert, or the filter value is null or undefined. *)
Lemma applyDateFilter_returns_iff h rv fv :
  returns (applyDateFilter h rv fv)
  <-> truthy rv = false
      \/ (converts h rv /\ nullish fv = false
          /\ converts h (ownProp fv "from") /\ converts h (ownProp fv "to")).
Proof.
  rewrite <- !newDate_returns. unfold applyDateFilter, getProp.
  destruct (truthy rv); simpl; [|split; eauto].
  destruct (newDate h rv); cstep;
    [|split; [by intros []|by intros [|([] & _)]]].
  destruct (nullish fv); cstep;
    [split; [by intros []|by intros [|(_ & ? & _)]]|].
  destruct (newDate h (ownProp fv "from")); cstep;
    [|split; [by intros []|by intros [|(_ & _ & [] & _)]]].
  destruct (newDate h (ownProp fv "to")); cstep;
    [|split; [by intros []|by intros [|(_ & _ & _ & [])]]].
  split; eauto 10.
Qed.

(** The amount evaluator reads [min], compares, and reads [max] only when
    the record value is not below [min]. *)
Lemma applyAmountFilter_returns_iff h rv fv :
  returns (applyAmountFilter h rv fv)
  <-> nullish rv = true
      \/ (nullish fv = false /\ converts h rv /\ converts h (ownProp fv "min")
          /\ (js_ge h rv (ownProp fv "min") = Normal true -> converts h (ownProp fv "max"))).
Proof.
  unfold applyAmountFilter, getProp. destruct (nullish rv); simpl; [split; eauto|].
  destruct (nullish fv); cstep; [split; [by intros []|by intros [|(? & _)]]|].
  pose proof (js_ge_returns h rv (ownProp fv "min")) as Hge.
  pose proof (js_le_returns h rv (ownProp fv "max")) as Hle.
  destruct (js_ge h rv (ownProp fv "min")) as [[]|].
  - rewrite Hle. destruct (proj1 Hge) as [Hrv Hmin]; [eauto|]. split.
    + intros [_ Hmax]. right. eauto.
    + intros [|(_ & _ & _ & Hmax)]; [done|]. split; [done|]. by apply Hmax.
  - destruct (proj1 Hge) as [Hrv Hmin]; [eauto|]. split; [|eauto]. intros _. right.
    repeat split; try done.
  - split; [by intros []|]. intros [|(_ & Hrv & Hmin & _)]; [done|].
    by destruct (proj2 Hge) as [? ?].
Qed.

Lemma applyMultiSelectFilter_not_array rv op fv :
  isArray rv = false -> applyMultiSelectFilter rv op fv = Normal false.
Proof. intros Hr. unfold applyMultiSelectFilter. by rewrite Hr, orb_true_r. Qed.

Lemma applyMultiSelectFilter_returns_iff rv op fv :
  returns (applyMultiSelectFilter rv op fv)
  <-> isArray rv = false \/ op ∉ ["in"; "notIn"] \/ isArray fv = true.
Proof.
  destruct (isArray rv) eqn:Hr.
  2:{ rewrite applyMultiSelectFilter_not_array by done. split; eauto. }
  destruct rv; try done. unfold applyMultiSelectFilter. simpl.
  destruct (String.eqb_spec op "in") as [->|Hin].
  { destruct fv; cstep; split; eauto; intros H; try (by destruct H).
    all: destruct H as [|[H|]]; try done; exfalso; apply H; left. }
  destruct (String.eqb_spec op "notIn") as [->|Hnotin].
  { destruct fv; cstep; split; eauto; intros H; try (by destruct H).
    all: destruct H as [|[H|]]; try done; exfalso; apply H; right; left. }
  split; eauto. intros _. right. left.
  intros Hop. apply elem_of_cons in Hop as [|Hop]; [done|].
  by apply list_elem_of_singleton in Hop.
Qed.

(** A condition the validator accepted is evaluated without a throw,
    provided the record value converts to a primitive and, under a text
    field, is a string (or falsy). *)
Lemma validated_returns h cfg record c :
  validateFilterCondition cfg c = true ->
  (forall fieldDef, cfg !! field c = Some fieldDef -> type fieldDef = text ->
     truthy (getFieldValue cfg record (field c)) = false
     \/ isString (getFieldValue cfg record (field c)) = true) ->
  converts h (getFieldValue cfg record (field c)) ->
  returns (applyFilterCondition h cfg record c).
Proof.
  unfold validateFilterCondition, applyFilterCondition, getFieldDefinition.
  destruct (cfg !! field c) as [fieldDef|] eqn:Hd; [|done].
  destruct (negb _); [done|]. intros Hv Htext Hconv.
  destruct (nullish _) eqn:Hn; [eauto|].
  destruct (type fieldDef) eqn:Ht.
  - apply applyTextFilter_returns_iff.
    destruct (Htext fieldDef eq_refl Ht) as [|Hs]; [by left|right].
    split; [done|]. by destruct (value c).
  - apply applyNumberFilter_returns_iff. right. right. split; [done|].
    destruct (value c); try done. by eexists.
  - apply applyDateFilter_returns_iff. right.
    apply andb_prop in Hv as [Hv Hto]. apply andb_prop in Hv as [Hv Hfrom].
    apply andb_prop in Hv as [Hv _]. apply andb_prop in Hv as [Hv _].
    apply andb_prop in Hv as [_ Hnull].
    split; [done|]. split; [by destruct (value c)|].
    split.
    + destruct (ownProp (value c) "from"); try done; by eexists.
    + destruct (ownProp (value c) "to"); try done; by eexists.
  - apply applyAmountFilter_returns_iff. right.
    apply andb_prop in Hv as [Hv Hle]. apply andb_prop in Hv as [Hv _].
    apply andb_prop in Hv as [Hv _]. apply andb_prop in Hv as [_ Hnull].
    split; [by destruct (value c)|]. split; [done|].
    destruct (ownProp (value c) "min"); try done.
    destruct (ownProp (value c) "max"); try done. split; [by eexists|]. intros _. by eexists.
  - apply applySingleSelectFilter_returns.
  - apply applyMultiSelectFilter_returns_iff. right. right. by destruct (value c).
  - apply applyBooleanFilter_returns.
Qed.

(** Comparison with [undefined] is false, and [new Date(undefined)] is invalid. *)
Lemma num_lt_NaN_r a : num_lt a NaN = None.
Proof. by destruct a. Qed.

Lemma js_ge_undefined h v : converts h v -> js_ge h v JUndefined = Normal false.
Proof.
  intros [p Hp]. unfold js_ge, isLessThan. rewrite Hp. cstep.
  destruct p; simpl; try done; by rewrite num_lt_NaN_r.
Qed.

Lemma applyAmountFilter_no_min h rv fv :
  nullish fv = false -> ownProp fv "min" = JUndefined -> converts h rv ->
  applyAmountFilter h rv fv = Normal false.
Proof.
  intros Hn Hmin Hrv. unfold applyAmountFilter, getProp. rewrite Hn.
  destruct (nullish rv); [done|]. cstep. by rewrite Hmin, js_ge_undefined.
Qed.

Lemma date_ge_invalid a : date_ge a None = false.
Proof. by destruct a. Qed.

Lemma applyDateFilter_no_from h rv fv :
  nullish fv = false -> ownProp fv "from" = JUndefined ->
  converts h rv -> converts h (ownProp fv "to") ->
  applyDateFilter h rv fv = Normal false.
Proof.
  intros Hn Hfrom Hrv Hto. unfold applyDateFilter, getProp. rewrite Hn.
  destruct (truthy rv); [|done].
  apply newDate_returns in Hrv as [rd Hrd], Hto as [td Htd].
  cbv [negb mbind Completion_bind]. cbv iota beta. rewrite Hrd, Hfrom, Htd.
  change (newDate h JUndefined) with (Normal (@None Z)). cbv iota beta. cbn [setHours].
  by rewrite date_ge_invalid.
Qed.

(** An empty record value is rejected before the filter value is used. *)
Lemma falsy_record_rejected h rv op fv :
  truthy rv = false ->
  applyTextFilter rv op fv = Normal false
  /\ applyDateFilter h rv fv = Normal false
  /\ applySingleSelectFilter rv op fv = Normal false.
Proof.
  intros Hrv. unfold applyTextFilter, applyDateFilter, applySingleSelectFilter.
  by rewrite Hrv.
Qed.

Lemma nullish_record_rejected h rv op fv :
  nullish rv = true ->
  applyNumberFilter h rv op fv = Normal false
  /\ applyAmountFilter h rv fv = Normal false.
Proof.
  intros Hrv. unfold applyNumberFilter, applyAmountFilter. by rewrite Hrv.
Qed.

(** ** C1: evaluation is not total *)

(** A number stored under a text field, a string given to the multi-select
    evaluator, a text row whose value is still [null], and an object with an
    own [toString] compared by the number evaluator all throw; and a value
    of the wrong shape can match: two equal strings satisfy the boolean
    evaluator. *)
Lemma evaluators_throw_on_wrong_shapes :
  applyTextFilter (JInt 42) "contains" (JStr "4") = ThrowTypeError
  /\ applyMultiSelectFilter (JArr [JStr "React"]) "in" (JStr "React") = ThrowTypeError
  /\ applyFilterCondition pacific fieldDefinitions employee1 nameUnset = ThrowTypeError
  /\ applyNumberFilter pacific (JObj [("toString", JInt 1)]) "greaterThan" (JInt 1)
     = ThrowTypeError
  /\ applyBooleanFilter (JStr "yes") (JStr "yes") = Normal true.
Proof. by vm_compute. Qed.

(** C1 (amended). The single-select and boolean evaluators return for all
    values.  The number evaluator returns exactly when the record value is
    null or undefined, the operator is not one of the four that compare with
    [<] or [>], or both values convert to a primitive.  The text evaluator
    returns exactly when the record value is falsy or both values are
    strings.  The date evaluator returns exactly when the record value is
    falsy, or the filter value is not null or undefined and the record value
    and both bounds convert; the amount evaluator exactly when the record
    value is null or undefined, or the filter value is not null or undefined,
    the record value and [min] convert and, when the record value is not
    below [min], [max] converts.  The multi-select evaluator returns exactly
    when the record value is not an array, the operator is not [in] or
    [notIn], or the filter value is an array.  An empty record value is
    rejected by every evaluator that guards on it, a record value that is not
    an array by the multi-select evaluator, and a filter value without
    [from] or [min] by the date and amount evaluators when the values they
    convert do convert.  A condition accepted by [validateFilterCondition] is
    evaluated without a throw when the record value converts and, under a
    text field, is a string or falsy. *)
Theorem evaluation_returns_on_expected_shapes :
  (forall h rv op fv,
     returns (applyNumberFilter h rv op fv)
     <-> nullish rv = true \/ op ∉ relationalOperators
         \/ (converts h rv /\ converts h fv))
  /\ (forall rv op fv, returns (applySingleSelectFilter rv op fv))
  /\ (forall rv fv, returns (applyBooleanFilter rv fv))
  /\ (forall rv op fv,
        returns (applyTextFilter rv op fv)
        <-> truthy rv = false \/ (isString rv = true /\ isString fv = true))
  /\ (forall h rv fv,
        returns (applyDateFilter h rv fv)
        <-> truthy rv = false
            \/ (converts h rv /\ nullish fv = false
                /\ converts h (ownProp fv "from") /\ converts h (ownProp fv "to")))
  /\ (forall h rv fv,
        returns (applyAmountFilter h rv fv)
        <-> nullish rv = true
            \/ (nullish fv = false /\ converts h rv /\ converts h (ownProp fv "min")
                /\ (js_ge h rv (ownProp fv "min") = Normal true ->
                    converts h (ownProp fv "max"))))
  /\ (forall rv op fv,
        returns (applyMultiSelectFilter rv op fv)
        <-> isArray rv = false \/ op ∉ ["in"; "notIn"] \/ isArray fv = true)
  /\ (forall h rv op fv, truthy rv = false ->
        applyTextFilter rv op fv = Normal false
        /\ applyDateFilter h rv fv = Normal false
        /\ applySingleSelectFilter rv op fv = Normal false)
  /\ (forall h rv op fv, nullish rv = true ->
        applyNumberFilter h rv op fv = Normal false
        /\ applyAmountFilter h rv fv = Normal false)
  /\ (forall rv op fv, isArray rv = false -> applyMultiSelectFilter rv op fv = Normal false)
  /\ (forall h rv fv, nullish fv = false -> ownProp fv "from" = JUndefined ->
        converts h rv -> converts h (ownProp fv "to") ->
        applyDateFilter h rv fv = Normal false)
  /\ (forall h rv fv, nullish fv = false -> ownProp fv "min" = JUndefined ->
        converts h rv ->
        applyAmountFilter h rv fv = Normal false)
  /\ (forall h cfg record c,
        validateFilterCondition cfg c = true ->
        (forall fieldDef, cfg !! field c = Some fieldDef -> type fieldDef = text ->
           truthy (getFieldValue cfg record (field c)) = false
           \/ isString (getFieldValue cfg record (field c)) = true) ->
        converts h (getFieldValue cfg record (field c)) ->
        returns (applyFilterCondition h cfg record c)).
Proof.
  split; [exact applyNumberFilter_returns_iff|].
  split; [exact applySingleSelectFilter_returns|].
  split; [exact applyBooleanFilter_returns|].
  split; [exact applyTextFilter_returns_iff|].
  split; [exact applyDateFilter_returns_iff|].
  split; [exact applyAmountFilter_returns_iff|].
  split; [exact applyMultiSelectFilter_returns_iff|].
  split; [exact falsy_record_rejected|].
  split; [exact nullish_record_rejected|].
  split; [exact applyMultiSelectFilter_not_array|].
  split; [exact applyDateFilter_no_from|].
  split; [exact applyAmountFilter_no_min|].
  exact validated_returns.
Qed.

(** A string where the amount evaluator expects a range is rejected, and a
    validated text condition on a record whose name is a string returns. *)
Lemma evaluation_returns_on_expected_shapes_witness :
  applyAmountFilter pacific (JInt 90000) (JStr "90000") = Normal false
  /\ returns (applyFilterCondition pacific fieldDefinitions employee1
                (condition "name" "startsWith" (JStr "Jane"))).
Proof.
  destruct evaluation_returns_on_expected_shapes
    as (_ & _ & _ & _ & _ & _ & _ & _ & _ & _ & _ & Hmin & Hvalid).
  split.
  - apply Hmin; try by vm_compute. by eexists.
  - apply Hvalid; [by vm_compute| |by eexists].
    intros fieldDef _ _. right. by vm_compute.
Defined.

(** ** C2: unrecognized operators *)

Lemma applyTextFilter_unrecognized rv op fv :
  op ∉ textOperators -> applyTextFilter rv op fv <> Normal true.
Proof.
  intros Hop. unfold applyTextFilter. destruct (truthy rv); [|done]. simpl.
  destruct (callToLowerCase rv); cstep; [|done].
  destruct (callToLowerCase fv); cstep; [|done].
  change (if op =? "equals" then _ else _)
    with (switch op
            [ ("equals", String.eqb a a0); ("contains", includes a a0);
              ("startsWith", startsWith a a0); ("endsWith", endsWith a a0);
              ("doesNotContain", negb (includes a a0)) ] false).
  by rewrite switch_default.
Qed.

Lemma applyTextFilter_unrecognized_strings (r : string) op (f : string) :
  op ∉ textOperators -> applyTextFilter (JStr r) op (JStr f) = Normal false.
Proof.
  intros Hop. unfold applyTextFilter. destruct (truthy (JStr r)); [|done].
  cbv [negb]. cbv iota. unfold callToLowerCase. cbv [mbind Completion_bind]. cbv iota beta.
  by rewrite switch_default.
Qed.

Lemma applyNumberFilter_unrecognized h rv op fv :
  op ∉ numberOperators -> applyNumberFilter h rv op fv = Normal false.
Proof.
  intros Hop. unfold applyNumberFilter. destruct (nullish rv); [done|].
  by rewrite switch_default.
Qed.

Lemma applySingleSelectFilter_unrecognized rv op fv :
  op ∉ ["is"; "isNot"] -> applySingleSelectFilter rv op fv = Normal false.
Proof.
  intros Hop. unfold applySingleSelectFilter. destruct (negb (truthy rv)); [done|].
  by rewrite switch_default.
Qed.

Lemma applyMultiSelectFilter_unrecognized rv op fv :
  op ∉ ["in"; "notIn"] -> applyMultiSelectFilter rv op fv = Normal false.
Proof.
  intros Hop. unfold applyMultiSelectFilter. destruct (_ || _); [done|].
  by rewrite switch_default.
Qed.

(** The evaluators of the one-operator types are not given the operator. *)
Lemma applyFilterCondition_operator_unused h cfg record c fieldDef op :
  cfg !! field c = Some fieldDef ->
  type fieldDef = boolean \/ type fieldDef = date \/ type fieldDef = amount ->
  applyFilterCondition h cfg record (withOperator c op) = applyFilterCondition h cfg record c.
Proof.
  intros Hd Ht. unfold applyFilterCondition, getFieldDefinition. simpl. rewrite Hd.
  destruct (nullish _); [done|]. by destruct Ht as [->|[->| ->]].
Qed.

Lemma validateFilterCondition_operator cfg c fieldDef :
  cfg !! field c = Some fieldDef -> operator c ∉ operators fieldDef ->
  validateFilterCondition cfg c = false.
Proof.
  intros Hd Hop. unfold validateFilterCondition, getFieldDefinition. rewrite Hd.
  by rewrite bool_decide_eq_false_2.
Qed.

(** [contains] is no operator of the boolean, date and amount types, yet
    conditions carrying it match. *)
Lemma unrecognized_operator_matches :
  applyFilterCondition pacific fieldDefinitions employee1
    (condition "isActive" "contains" (JBool true)) = Normal true
  /\ applyFilterCondition pacific fieldDefinitions employee1
       (condition "joinDate" "contains"
          (JObj [("from", JStr "2024-03-01"); ("to", JStr "2024-03-31")])) = Normal true
  /\ applyFilterCondition pacific fieldDefinitions employee1
       (condition "salary" "contains"
          (JObj [("min", JInt 80000); ("max", JInt 120000)])) = Normal true.
Proof. by vm_compute. Qed.

(** C2 (amended). Under an operator that its type does not recognize, the
    text evaluator never matches (and returns false on two strings), and the
    number, single-select and multi-select evaluators return false.  The
    boolean, date and amount evaluators are not given the operator: a
    condition on such a field evaluates the same under every operator.  An
    operator outside the field's declared list is rejected by
    [validateFilterCondition]. *)
Theorem unrecognized_operator_policy :
  (forall rv op fv, op ∉ textOperators -> applyTextFilter rv op fv <> Normal true)
  /\ (forall (r : string) op (f : string), op ∉ textOperators ->
        applyTextFilter (JStr r) op (JStr f) = Normal false)
  /\ (forall h rv op fv, op ∉ numberOperators -> applyNumberFilter h rv op fv = Normal false)
  /\ (forall rv op fv, op ∉ ["is"; "isNot"] -> applySingleSelectFilter rv op fv = Normal false)
  /\ (forall rv op fv, op ∉ ["in"; "notIn"] -> applyMultiSelectFilter rv op fv = Normal false)
  /\ (forall h cfg record c fieldDef op,
        cfg !! field c = Some fieldDef ->
        type fieldDef = boolean \/ type fieldDef = date \/ type fieldDef = amount ->
        applyFilterCondition h cfg record (withOperator c op)
        = applyFilterCondition h cfg record c)
  /\ (forall cfg c fieldDef,
        cfg !! field c = Some fieldDef -> operator c ∉ operators fieldDef ->
        validateFilterCondition cfg c = false).
Proof.
  split; [exact applyTextFilter_unrecognized|].
  split; [exact applyTextFilter_unrecognized_strings|].
  split; [exact applyNumberFilter_unrecognized|].
  split; [exact applySingleSelectFilter_unrecognized|].
  split; [exact applyMultiSelectFilter_unrecognized|].
  split; [exact applyFilterCondition_operator_unused|].
  exact validateFilterCondition_operator.
Qed.

Lemma unrecognized_operator_policy_witness :
  applyNumberFilter pacific (JInt 3) "contains" (JInt 3) = Normal false
  /\ applyFilterCondition pacific fieldDefinitions employee1
       (withOperator (condition "isActive" "is" (JBool true)) "contains")
     = applyFilterCondition pacific fieldDefinitions employee1
         (condition "isActive" "is" (JBool true))
  /\ validateFilterCondition fieldDefinitions
       (condition "isActive" "contains" (JBool true)) = false.
Proof.
  destruct unrecognized_operator_policy as (_ & _ & Hnum & _ & _ & Hunused & Hvalid).
  split; [|split].
  - apply Hnum. by_decide.
  - apply Hunused with (plain "isActive" "Active Status" boolean ["is"]); [by vm_compute|by left].
  - apply Hvalid with (plain "isActive" "Active Status" boolean ["is"]); [by vm_compute|by_decide].
Defined.

(** ** C6: the single-select evaluator *)

Lemma eqb_bool_decide (a b : string) : String.eqb a b = bool_decide (a = b).
Proof.
  destruct (String.eqb_spec a b).
  - by rewrite bool_decide_eq_true_2.
  - by rewrite bool_decide_eq_false_2.
Qed.

Lemma truthy_nonempty (s : string) : s <> "" -> truthy (JStr s) = true.
Proof. intros Hs. simpl. by destruct (String.eqb_spec s ""). Qed.

Lemma applySingleSelectFilter_is (rv fv : string) :
  rv <> "" ->
  applySingleSelectFilter (JStr rv) "is" (JStr fv) = Normal (bool_decide (rv = fv)).
Proof.
  intros Hs. unfold applySingleSelectFilter. rewrite truthy_nonempty by done.
  simpl. by rewrite eqb_bool_decide.
Qed.

Lemma applySingleSelectFilter_isNot (rv fv : string) :
  rv <> "" ->
  applySingleSelectFilter (JStr rv) "isNot" (JStr fv) = Normal (bool_decide (rv <> fv)).
Proof.
  intros Hs. unfold applySingleSelectFilter. rewrite truthy_nonempty by done.
  simpl. rewrite eqb_bool_decide. f_equal. by rewrite bool_decide_not.
Qed.

Lemma applySingleSelectFilter_empty rv op fv :
  rv ∈ [JStr ""; JNull; JUndefined] -> applySingleSelectFilter rv op fv = Normal false.
Proof.
  intros Hrv. repeat (apply elem_of_cons in Hrv as [->|Hrv]; [done|]).
  by apply elem_of_nil in Hrv.
Qed.

(** C6. On a non-empty record string, [is] is equality of the two strings
    and [isNot] their inequality; an empty, null or undefined record value
    gives false under every operator, [isNot] included. *)
Theorem applySingleSelectFilter_spec :
  (forall rv fv : string, rv <> "" ->
     applySingleSelectFilter (JStr rv) "is" (JStr fv) = Normal (bool_decide (rv = fv)))
  /\ (forall rv fv : string, rv <> "" ->
        applySingleSelectFilter (JStr rv) "isNot" (JStr fv) = Normal (bool_decide (rv <> fv)))
  /\ (forall rv op fv, rv ∈ [JStr ""; JNull; JUndefined] ->
        applySingleSelectFilter rv op fv = Normal false).
Proof.
  split; [exact applySingleSelectFilter_is|].
  split; [exact applySingleSelectFilter_isNot|exact applySingleSelectFilter_empty].
Qed.

Lemma applySingleSelectFilter_spec_witness :
  applySingleSelectFilter (JStr "Sales") "is" (JStr "Sales") = Normal true
  /\ applySingleSelectFilter (JStr "Sales") "isNot" (JStr "sales") = Normal true
  /\ applySingleSelectFilter (JStr "") "isNot" (JStr "Sales") = Normal false.
Proof.
  destruct applySingleSelectFilter_spec as (His & HisNot & Hempty).
  split; [|split].
  - by rewrite His.
  - by rewrite HisNot.
  - apply Hempty. left.
Defined.

(** ** C4 and C10: the validator *)

(** Infinity is a number and is not NaN. *)
Lemma validateFilterCondition_accepts_infinity :
  validateFilterCondition fieldDefinitions (condition "projects" "greaterThan" (JNum PosInf))
  = true
  /\ num_isFinite PosInf = false.
Proof. by vm_compute. Qed.

(** C4 (amended). On a number field, under a declared operator, a
    condition is valid exactly when its value is a number other than NaN;
    every value that is not a number is rejected, the infinities are not. *)
Theorem validateFilterCondition_number (cfg : gmap string FieldDefinition)
    (c : FilterCondition) (fieldDef : FieldDefinition) :
  cfg !! field c = Some fieldDef -> type fieldDef = number ->
  operator c ∈ operators fieldDef ->
  validateFilterCondition cfg c = true <-> exists n, value c = JNum n /\ n <> NaN.
Proof.
  intros Hd Ht Hop. unfold validateFilterCondition, getFieldDefinition.
  rewrite Hd, Ht, bool_decide_eq_true_2 by done. simpl.
  destruct (value c) as [| | |n| | |]; try (split; [done|by intros (? & [=] & _)]).
  destruct n; simpl; split; try done; try (intros _; by eexists).
  by intros (? & [= <-] & ?).
Qed.

Lemma validateFilterCondition_number_witness :
  exists n, value (condition "projects" "equals" (JInt 3)) = JNum n /\ n <> NaN.
Proof.
  apply (validateFilterCondition_number fieldDefinitions
           (condition "projects" "equals" (JInt 3))
           (plain "projects" "Projects" number numberOperators)).
  - by vm_compute.
  - reflexivity.
  - by_decide.
  - by vm_compute.
Defined.

(** C10. The validator does not look at [options]: a department that is
    not on the list and skills that are not on the list are accepted. *)
Theorem validateFilterCondition_ignores_options :
  (exists c fieldDef opts s,
      fieldDefinitions !! field c = Some fieldDef
      /\ type fieldDef = singleSelect /\ options fieldDef = Some opts
      /\ value c = JStr s /\ s <> "" /\ (s ∉ opts)
      /\ validateFilterCondition fieldDefinitions c = true)
  /\ (exists c fieldDef opts l,
        fieldDefinitions !! field c = Some fieldDef
        /\ type fieldDef = multiSelect /\ options fieldDef = Some opts
        /\ value c = JArr l /\ l <> [] /\ (forall s, JStr s ∈ l -> s ∉ opts)
        /\ validateFilterCondition fieldDefinitions c = true).
Proof.
  split.
  - exists (condition "department" "is" (JStr "Legal")),
      (select "department" "Department" singleSelect ["is"; "isNot"] departmentOptions),
      departmentOptions, "Legal".
    repeat split; try by vm_compute. by_decide.
  - exists (condition "skills" "in" (JArr [JStr "COBOL"; JStr "Fortran"])),
      (select "skills" "Skills" multiSelect ["in"; "notIn"] skillsOptions),
      skillsOptions, [JStr "COBOL"; JStr "Fortran"].
    repeat split; try by vm_compute.
    intros s Hs. apply elem_of_cons in Hs as [[= ->]|Hs]; [by_decide|].
    apply list_elem_of_singleton in Hs as [= ->]. by_decide.
Qed.

(** ** C5: the date evaluator *)

Lemma digit_of_le c d : digit_of c = Some d -> (d <= 9)%nat.
Proof.
  unfold digit_of. destruct (_ && _) eqn:Hc; [|done]. intros [= <-].
  apply andb_prop in Hc as [_ Hc%Nat.leb_le]. lia.
Qed.

Lemma digits_from_lt s : forall acc n,
  digits_from acc s = Some n -> (n < (acc + 1) * 10 ^ String.length s)%nat.
Proof.
  induction s as [|c t IH]; intros acc n; simpl.
  - intros [= <-]. lia.
  - destruct (digit_of c) as [d|] eqn:Hd; [|done].
    apply digit_of_le in Hd. intros Hn%IH. nia.
Qed.

Lemma length_substring_le s : forall n m, (String.length (String.substring n m s) <= m)%nat.
Proof.
  induction s as [|c t IH]; intros [|n] [|m]; simpl; try lia.
  - specialize (IH 0%nat m). lia.
  - apply (IH n 0%nat).
  - apply (IH n (S m)).
Qed.

Lemma digitsZ_substring_range s n m z :
  digitsZ (String.substring n m s) = Some z -> (0 <= z < 10 ^ Z.of_nat m)%Z.
Proof.
  unfold digitsZ. destruct (digits_from _ _) as [k|] eqn:Hk; [|done].
  intros [= <-]. apply digits_from_lt in Hk.
  pose proof (length_substring_le s n m) as Hlen.
  assert (10 ^ String.length (String.substring n m s) <= 10 ^ m)%nat
    by (apply Nat.pow_le_mono_r; lia).
  split; [lia|]. change 10%Z with (Z.of_nat 10). rewrite <- Nat2Z.inj_pow. lia.
Qed.

Lemma DaysInMonth_range y m : (28 <= DaysInMonth y m <= 31)%Z.
Proof.
  unfold DaysInMonth.
  destruct (m =? 2)%Z; [destruct (isLeapYear y); lia|].
  destruct (_ || _); lia.
Qed.

Lemma daysBefore_range y k : (0 <= daysBefore y k <= 31 * Z.of_nat k)%Z.
Proof.
  induction k as [|k IH]; [simpl; lia|].
  change (daysBefore y (S k)) with (daysBefore y k + DaysInMonth y (Z.of_nat (S k)))%Z.
  pose proof (DaysInMonth_range y (Z.of_nat (S k))). lia.
Qed.

(** A date-only string names a day between years 0 and 9999. *)
Lemma isoDateOnly_range s day :
  isoDateOnly s = Some day -> (-720000 <= day <= 2940000)%Z.
Proof.
  unfold isoDateOnly. destruct (_ && _); [|done].
  destruct (digitsZ (String.substring 0 4 s)) as [y|] eqn:Hy; [|done].
  destruct (digitsZ (String.substring 5 2 s)) as [m|] eqn:Hm; [|done].
  destruct (digitsZ (String.substring 8 2 s)) as [d|] eqn:Hd; [|done].
  simpl. destruct (_ && _) eqn:Hr; [|done]. intros [= <-].
  apply digitsZ_substring_range in Hy.
  repeat (apply andb_prop in Hr as [Hr ?]).
  pose proof (DaysInMonth_range y m).
  pose proof (daysBefore_range y (Z.to_nat (m - 1))).
  unfold MakeDay, DayFromYear.
  change (10 ^ Z.of_nat 4)%Z with 10000%Z in Hy.
  Z.div_mod_to_equations. lia.
Qed.

Lemma isoDateOnly_nonempty s day : isoDateOnly s = Some day -> truthy (JStr s) = true.
Proof. by destruct s. Qed.

Lemma newDate_isoDateOnly h s day :
  isoDateOnly s = Some day -> newDate h (JStr s) = Normal (Some (day * msPerDay)%Z).
Proof. intros Hs. unfold newDate, DateParse. cstep. by rewrite Hs. Qed.

(** [setHours(0, 0, 0, 0)] and [setHours(23, 59, 59, 999)] move a date to
    the first and to the last millisecond of its local day. *)
Lemma setHours_day_bounds h t :
  (- maxTime + msPerDay <= t <= maxTime - msPerDay)%Z ->
  exists s e,
    setHours h (Some t) 0 0 0 0 = Some s
    /\ setHours h (Some t) 23 59 59 999 = Some e
    /\ ((s + LocalTZA h) mod msPerDay = 0)%Z
    /\ ((e + LocalTZA h) mod msPerDay = msPerDay - 1)%Z
    /\ (s <= t <= e)%Z
    /\ (e = s + msPerDay - 1)%Z.
Proof.
  intros Ht. unfold setHours, timeClipZ, maxTime, msPerDay in *.
  set (tz := LocalTZA h) in *.
  set (day := ((t + tz) / 86400000)%Z).
  assert (day * 86400000 <= t + tz < day * 86400000 + 86400000)%Z as Hday
    by (subst day; Z.div_mod_to_equations; lia).
  exists (day * 86400000 - tz)%Z, (day * 86400000 + 86399999 - tz)%Z.
  repeat split; try lia.
  - replace (_ + _ - tz)%Z with (day * 86400000 - tz)%Z by lia.
    destruct (Z.leb_spec (Z.abs (day * 86400000 - tz)) 8640000000000000); [done|lia].
  - replace (_ + _ - tz)%Z with (day * 86400000 + 86399999 - tz)%Z by lia.
    destruct (Z.leb_spec (Z.abs (day * 86400000 + 86399999 - tz)) 8640000000000000); [done|lia].
  - replace (_ - tz + tz)%Z with (day * 86400000)%Z by lia. apply Z_mod_mult.
  - replace (_ - tz + tz)%Z with (86399999 + day * 86400000)%Z by lia.
    by rewrite Z_mod_plus_full.
Qed.

Lemma day_in_time_range day :
  (-720000 <= day <= 2940000)%Z ->
  (- maxTime + msPerDay <= day * msPerDay <= maxTime - msPerDay)%Z.
Proof. unfold maxTime, msPerDay. lia. Qed.

(** Between two calendar dates: a record dated [dr] matches the range
    [df]..[dt] exactly when [df <= dr <= dt], whatever the offset of the
    local time zone. *)
Lemma applyDateFilter_between h (rec from to : string) (fv : JsValue) (dr df dt : Z) :
  isoDateOnly rec = Some dr -> isoDateOnly from = Some df -> isoDateOnly to = Some dt ->
  nullish fv = false -> ownProp fv "from" = JStr from -> ownProp fv "to" = JStr to ->
  applyDateFilter h (JStr rec) fv = Normal ((df <=? dr) && (dr <=? dt))%Z.
Proof.
  intros Hr Hf Ht Hn Hfrom Hto. unfold applyDateFilter, getProp.
  rewrite (isoDateOnly_nonempty _ _ Hr), Hn. cbv [negb mbind Completion_bind]. cbv iota beta.
  rewrite Hfrom, Hto.
  rewrite (newDate_isoDateOnly _ _ _ Hr), (newDate_isoDateOnly _ _ _ Hf),
    (newDate_isoDateOnly _ _ _ Ht).
  destruct (setHours_day_bounds h (df * msPerDay))
    as (s1 & e1 & -> & _ & _ & _ & ? & ?);
    [by apply day_in_time_range, isoDateOnly_range with from|].
  destruct (setHours_day_bounds h (dt * msPerDay))
    as (s2 & e2 & _ & -> & _ & _ & ? & ?);
    [by apply day_in_time_range, isoDateOnly_range with to|].
  unfold date_ge, date_le, msPerDay in *. f_equal.
  destruct (Z.leb_spec s1 (dr * 86400000)), (Z.leb_spec (dr * 86400000) e2),
    (Z.leb_spec df dr), (Z.leb_spec dr dt); simpl; try done; lia.
Qed.

(** For a record value that denotes the instant [t], the local days that
    match depend on the sign of the offset: they are the days [df]..[dt] at
    and east of UTC, and the days [df - 1]..[dt - 1] west of it, because the
    bounds are parsed as midnight UTC and then normalized in local time. *)
Lemma applyDateFilter_local_days h (rv fv : JsValue) (from to : string) (t df dt : Z) :
  (- msPerDay < LocalTZA h < msPerDay)%Z ->
  truthy rv = true -> newDate h rv = Normal (Some t) ->
  isoDateOnly from = Some df -> isoDateOnly to = Some dt ->
  nullish fv = false -> ownProp fv "from" = JStr from -> ownProp fv "to" = JStr to ->
  let shift := (if LocalTZA h <? 0 then 1 else 0)%Z in
  let localDay := ((t + LocalTZA h) / msPerDay)%Z in
  applyDateFilter h rv fv = Normal ((df - shift <=? localDay) && (localDay <=? dt - shift))%Z.
Proof.
  intros Htz Hrv Hr Hf Ht Hn Hfrom Hto shift localDay. unfold applyDateFilter, getProp.
  rewrite Hrv, Hn. cbv [negb mbind Completion_bind]. cbv iota beta.
  rewrite Hfrom, Hto, Hr, (newDate_isoDateOnly _ _ _ Hf), (newDate_isoDateOnly _ _ _ Ht).
  destruct (setHours_day_bounds h (df * msPerDay))
    as (s1 & e1 & -> & _ & Hs1 & _ & ? & ?);
    [by apply day_in_time_range, isoDateOnly_range with from|].
  destruct (setHours_day_bounds h (dt * msPerDay))
    as (s2 & e2 & _ & -> & _ & He2 & ? & ?);
    [by apply day_in_time_range, isoDateOnly_range with to|].
  subst shift localDay. unfold date_ge, date_le, msPerDay in *. f_equal.
  set (tz := LocalTZA h) in *.
  destruct (Z.ltb_spec tz 0);
    destruct (Z.leb_spec s1 t), (Z.leb_spec t e2),
      (Z.leb_spec (df - 1) ((t + tz) / 86400000)), (Z.leb_spec ((t + tz) / 86400000) (dt - 1)),
      (Z.leb_spec (df - 0) ((t + tz) / 86400000)), (Z.leb_spec ((t + tz) / 86400000) (dt - 0));
    simpl; try done; Z.div_mod_to_equations; lia.
Qed.

(** Without the two calls of [setHours] the bounds would both be midnight
    UTC: at UTC, noon of the last day of a range matches only because the
    [to] bound is moved to the end of its day. *)
Lemma setHours_extends_to_bound :
  newDate (hostAt 0) (JStr "2024-03-15") = Normal (Some 1710460800000%Z)
  /\ setHours (hostAt 0) (Some 1710460800000%Z) 23 59 59 999 = Some 1710547199999%Z
  /\ newDate (hostAt 0) (JStr "2024-03-15T12:00:00") = Normal (Some 1710504000000%Z)
  /\ date_le (Some 1710504000000%Z) (Some 1710460800000%Z) = false
  /\ date_le (Some 1710504000000%Z) (Some 1710547199999%Z) = true.
Proof. by vm_compute. Qed.

(** C5. Whole days are not always included.  The record is dated noon,
    local time, of 2024-03-15 and the range is from 2024-03-15 to
    2024-03-15.  At UTC and east of it the record matches.  Eight hours west
    of UTC it does not match, and noon of the day before does: the bounds are
    read as midnight UTC, which is the evening before in local time, and
    [setHours] then moves them to the start and to the end of that local day,
    2024-03-14.  A record that holds the date alone is read as midnight UTC
    too and matches in every one of these zones. *)
Theorem applyDateFilter_same_day_by_zone :
  let range := JObj [("from", JStr "2024-03-15"); ("to", JStr "2024-03-15")] in
  applyDateFilter (hostAt 0) (JStr "2024-03-15T12:00:00") range = Normal true
  /\ applyDateFilter (hostAt 19800000) (JStr "2024-03-15T12:00:00") range = Normal true
  /\ applyDateFilter pacific (JStr "2024-03-15T12:00:00") range = Normal false
  /\ applyDateFilter pacific (JStr "2024-03-14T12:00:00") range = Normal true
  /\ applyFilterCondition pacific fieldDefinitions
       (JObj [("id", JInt 3); ("joinDate", JStr "2024-03-15T12:00:00")])
       (condition "joinDate" "between" range) = Normal false
  /\ applyDateFilter pacific (JStr "2024-03-15") range = Normal true
  /\ applyDateFilter (hostAt 0) (JStr "2024-03-15") range = Normal true
  /\ (fromDate ← newDate pacific (JStr "2024-03-15");
      Normal (setHours pacific fromDate 0 0 0 0))
     = newDate pacific (JStr "2024-03-14T00:00:00")
  /\ (toDate ← newDate pacific (JStr "2024-03-15");
      Normal (setHours pacific toDate 23 59 59 999))
     = newDate pacific (JStr "2024-03-14T23:59:59.999").
Proof. by vm_compute. Qed.

(** * Further properties of the engine and of its callers *)

Import App FilterBuilder DataTable MockApi.

(** ** [filterEmployees] as a whole *)

Section MoreArrayMethods.
Context {A : Type}.
Implicit Types (p : A -> Completion bool) (l : list A).

Lemma every_true_iff p l :
  every p l = Normal true <-> forall x, x ∈ l -> p x = Normal true.
Proof.
  induction l as [|y t IH]; simpl.
  - split; [|done]. intros _ x Hx. by apply elem_of_nil in Hx.
  - destruct (p y) as [[]|] eqn:Hy; cstep.
    + rewrite IH. split.
      * intros Ht x [->|Hx]%elem_of_cons; [done|by apply Ht].
      * intros Hall x Hx. apply Hall. by right.
    + split; [done|]. intros Hall. specialize (Hall y). rewrite Hy in Hall.
      by discriminate Hall; left.
    + split; [done|]. intros Hall. specialize (Hall y). rewrite Hy in Hall.
      by discriminate Hall; left.
Qed.

Lemma every_returns p l :
  (forall x, x ∈ l -> returns (p x)) -> returns (every p l).
Proof.
  induction l as [|y t IH]; intros Hp; simpl; [eauto|].
  destruct (Hp y) as [[] ->]; [left| |]; cstep; [|eauto].
  apply IH. intros x Hx. apply Hp. by right.
Qed.

Lemma every_app p l1 l2 :
  every p (l1 ++ l2) = (b ← every p l1; if b : bool then every p l2 else Normal false).
Proof.
  induction l1 as [|y t IH]; simpl; [done|].
  destruct (p y) as [[]|]; cstep; done.
Qed.

(** Among tests that all return, the order of the tests is immaterial. *)
Lemma every_Permutation p l1 l2 :
  (forall x, x ∈ l1 -> returns (p x)) -> l1 ≡ₚ l2 -> every p l1 = every p l2.
Proof.
  intros Hr Hperm.
  assert (forall x, x ∈ l2 -> returns (p x)) as Hr2
    by (intros x Hx; apply Hr; by rewrite Hperm).
  destruct (every_returns p l1 Hr) as [b1 H1], (every_returns p l2 Hr2) as [b2 H2].
  rewrite H1, H2. f_equal.
  destruct b1, b2; try done.
  - pose proof (proj1 (every_true_iff p l1) H1) as Hall.
    assert (every p l2 = Normal true) as H2'; [|congruence].
    apply every_true_iff. intros x Hx. apply Hall. by rewrite Hperm.
  - pose proof (proj1 (every_true_iff p l2) H2) as Hall.
    assert (every p l1 = Normal true) as H1'; [|congruence].
    apply every_true_iff. intros x Hx. apply Hall. by rewrite <- Hperm.
Qed.

Lemma filter_elem_of p l l' x :
  Js.filter p l = Normal l' -> x ∈ l' <-> x ∈ l /\ p x = Normal true.
Proof.
  intros Hf. split; [by apply filter_kept|].
  revert l' Hf. induction l as [|y t IH]; intros l'; simpl.
  - intros _ [Hx _]. by apply elem_of_nil in Hx.
  - destruct (p y) as [b|] eqn:Hy; cstep; [|done].
    destruct (Js.filter p t) as [rest|] eqn:Ht; [|done].
    intros [= <-] [[->|Hx]%elem_of_cons Hpx].
    + rewrite Hy in Hpx. injection Hpx as ->. left.
    + destruct b; [right|]; by apply (IH rest).
Qed.

Lemma filter_sublist p l l' : Js.filter p l = Normal l' -> sublist l' l.
Proof.
  revert l'. induction l as [|y t IH]; intros l'; simpl.
  - intros [= <-]. constructor.
  - destruct (p y) as [b|]; cstep; [|done].
    destruct (Js.filter p t) as [rest|]; [|done].
    intros [= <-]. destruct b; constructor; by apply IH.
Qed.

Lemma filter_app p l1 l2 :
  Js.filter p (l1 ++ l2)
  = (a ← Js.filter p l1; b ← Js.filter p l2; Normal (a ++ b)%list).
Proof.
  induction l1 as [|y t IH]; simpl.
  - cstep. by destruct (Js.filter p l2).
  - destruct (p y) as [b|]; cstep; [|done]. rewrite IH. cstep.
    destruct (Js.filter p t); [|done]. destruct (Js.filter p l2); [|done]. by destruct b.
Qed.

(** Filtering by one test after another is filtering by their conjunction. *)
Lemma filter_filter (p q : A -> Completion bool) l :
  Js.filter (fun x => b ← p x; if b : bool then q x else Normal false) l
  = (l' ← Js.filter p l; Js.filter q l').
Proof.
  induction l as [|y t IH]; [done|].
  simpl. rewrite IH.
  destruct (p y) as [[]|], (Js.filter p t) as [l'|], (q y) as [b|] eqn:Hq;
    cstep; rewrite ?Hq; cstep; try done;
    by destruct (Js.filter q l').
Qed.

End MoreArrayMethods.

Lemma filter_accept_all {A} (l : list A) : Js.filter (fun _ => Normal true) l = Normal l.
Proof. induction l as [|x t IH]; [done|]. simpl. cstep. by rewrite IH. Qed.

(** The shortcut for an empty list of filters agrees with the general path. *)
Lemma filterEmployees_as_filter h cfg R C :
  filterEmployees h cfg R C
  = Js.filter (fun record => every (fun c => applyFilterCondition h cfg record c) C) R.
Proof.
  destruct C as [|c C']; [|done]. symmetry. apply (filter_accept_all R).
Qed.

(** X1. A record is in the result exactly when it is in the input and every
    condition evaluates to true on it. *)
Theorem filterEmployees_elem_of h cfg R C L r :
  filterEmployees h cfg R C = Normal L ->
  r ∈ L <-> r ∈ R /\ forall c, c ∈ C -> applyFilterCondition h cfg r c = Normal true.
Proof.
  rewrite filterEmployees_as_filter. intros HL.
  rewrite (filter_elem_of _ _ _ r HL). by rewrite every_true_iff.
Qed.

Lemma filterEmployees_elem_of_witness :
  employee1 ∈ [employee1]
  <-> employee1 ∈ twoRecords
      /\ forall c, c ∈ [condition "department" "is" (JStr "Engineering")] ->
           applyFilterCondition pacific fieldDefinitions employee1 c = Normal true.
Proof.
  apply (filterEmployees_elem_of pacific fieldDefinitions twoRecords
           [condition "department" "is" (JStr "Engineering")] [employee1] employee1).
  by vm_compute.
Defined.

(** X2. The result keeps the order of the input and adds nothing: it is a
    subsequence of the records given. *)
Theorem filterEmployees_sublist h cfg R C L :
  filterEmployees h cfg R C = Normal L -> sublist L R.
Proof. rewrite filterEmployees_as_filter. apply filter_sublist. Qed.

Lemma filterEmployees_sublist_witness : sublist [employee1] twoRecords.
Proof.
  apply (filterEmployees_sublist pacific fieldDefinitions twoRecords
           [condition "department" "is" (JStr "Engineering")] [employee1]).
  by vm_compute.
Defined.

Lemma filterEmployees_split h cfg R C1 C2 :
  filterEmployees h cfg R (C1 ++ C2)
  = (L ← filterEmployees h cfg R C1; filterEmployees h cfg L C2).
Proof.
  rewrite (filterEmployees_as_filter h cfg R (C1 ++ C2)), (filterEmployees_as_filter h cfg R C1).
  set (p1 := fun record => every (fun c => applyFilterCondition h cfg record c) C1).
  set (p2 := fun record => every (fun c => applyFilterCondition h cfg record c) C2).
  transitivity (l' ← Js.filter p1 R; Js.filter p2 l').
  - rewrite <- filter_filter. apply filter_ext_in. intros r _. apply every_app.
  - destruct (Js.filter p1 R) as [L|]; [|done]. cstep.
    symmetry. apply filterEmployees_as_filter.
Qed.

(** X3. Filtering by the conditions [C1 ++ C2] is filtering by [C1] and
    then filtering what is left by [C2], throws included. *)
Theorem filterEmployees_app_conditions h cfg R C1 C2 :
  filterEmployees h cfg R (C1 ++ C2)
  = (L ← filterEmployees h cfg R C1; filterEmployees h cfg L C2).
Proof. apply filterEmployees_split. Qed.

(** X4. When no condition throws on a record of [R], every reordering of
    the conditions gives the same result. *)
Theorem filterEmployees_Permutation h cfg R C C' :
  (forall r c, r ∈ R -> c ∈ C -> returns (applyFilterCondition h cfg r c)) ->
  C ≡ₚ C' ->
  filterEmployees h cfg R C = filterEmployees h cfg R C'.
Proof.
  intros Hr Hperm. rewrite !filterEmployees_as_filter.
  apply filter_ext_in. intros r Hin.
  apply every_Permutation; [|done]. intros c Hc. by apply Hr.
Qed.

Lemma filterEmployees_Permutation_witness :
  filterEmployees pacific fieldDefinitions twoRecords
    [inSales; condition "isActive" "is" (JBool false); condition "name" "contains" (JStr "lee")]
  = filterEmployees pacific fieldDefinitions twoRecords
      [condition "name" "contains" (JStr "lee"); inSales; condition "isActive" "is" (JBool false)].
Proof.
  apply filterEmployees_Permutation.
  - intros r c Hr Hc.
    repeat (apply elem_of_cons in Hr as [->|Hr]);
      repeat (apply elem_of_cons in Hc as [->|Hc]);
      try (by apply elem_of_nil in Hr); try (by apply elem_of_nil in Hc);
      vm_compute; eauto.
  - symmetry. apply (Permutation_cons_append [_; _]).
Defined.

(** X5. Each record is decided on its own: filtering [R1 ++ R2] is
    filtering [R1], then [R2], and appending the results. *)
Theorem filterEmployees_app_records h cfg R1 R2 C :
  filterEmployees h cfg (R1 ++ R2) C
  = (L1 ← filterEmployees h cfg R1 C; L2 ← filterEmployees h cfg R2 C; Normal (L1 ++ L2)%list).
Proof. rewrite !filterEmployees_as_filter. apply filter_app. Qed.

(** X6. A condition on a field the schema does not know rejects every
    record: a result that contains one is empty. *)
Theorem filterEmployees_unknown_field h cfg R C L c :
  c ∈ C -> cfg !! field c = None ->
  filterEmployees h cfg R C = Normal L -> L = [].
Proof.
  intros Hc Hnone HL. destruct L as [|r L']; [done|]. exfalso.
  assert (r ∈ r :: L') as Hin by left.
  rewrite filterEmployees_as_filter in HL.
  apply (filter_elem_of _ _ _ r HL) in Hin as [_ Hall].
  pose proof (proj1 (every_true_iff _ _) Hall c Hc) as Htrue.
  unfold applyFilterCondition, getFieldDefinition in Htrue.
  by rewrite Hnone in Htrue.
Qed.

Lemma filterEmployees_unknown_field_witness :
  filterEmployees pacific fieldDefinitions twoRecords
    [condition "isActive" "is" (JBool true); condition "nickname" "equals" (JStr "JM")]
  = Normal []
  /\ @nil JsValue = [].
Proof.
  split; [by vm_compute|].
  apply (filterEmployees_unknown_field pacific fieldDefinitions twoRecords
           [condition "isActive" "is" (JBool true); condition "nickname" "equals" (JStr "JM")]
           [] (condition "nickname" "equals" (JStr "JM"))).
  - right. left.
  - by vm_compute.
  - by vm_compute.
Defined.

(** X7. Adding conditions never adds records: the result under [C ++ C']
    is a subsequence of the result under [C]. *)
Theorem filterEmployees_more_conditions h cfg R C C' L L' :
  filterEmployees h cfg R C = Normal L ->
  filterEmployees h cfg R (C ++ C') = Normal L' ->
  sublist L' L.
Proof.
  intros HL. rewrite filterEmployees_split, HL. cstep.
  rewrite filterEmployees_as_filter. apply filter_sublist.
Qed.

Lemma filterEmployees_more_conditions_witness :
  sublist [employee1] [employee1].
Proof.
  apply (filterEmployees_more_conditions pacific fieldDefinitions twoRecords
           [condition "isActive" "is" (JBool true)]
           [condition "skills" "in" (JArr [JStr "Docker"])]
           [employee1] [employee1]); by vm_compute.
Defined.

(** ** The schema *)

Lemma fieldDefinitions_entries : fieldDefinitions = list_to_map fieldDefinitionEntries.
Proof. reflexivity. Qed.

Lemma getAvailableFields_NoDup : NoDup getAvailableFields.
Proof. apply (bool_decide_unpack _). by vm_compute. Qed.

Lemma fieldDefinitions_lookup k fieldDef :
  fieldDefinitions !! k = Some fieldDef <-> (k, fieldDef) ∈ fieldDefinitionEntries.
Proof.
  rewrite fieldDefinitions_entries. symmetry.
  apply elem_of_list_to_map. apply getAvailableFields_NoDup.
Qed.

(** Case analysis on the entry a key resolves to. *)
Ltac schema_cases H :=
  apply fieldDefinitions_lookup in H;
  repeat (apply elem_of_cons in H as [H|H]; [injection H as -> ->|]);
  [..|by apply elem_of_nil in H].

Lemma getFieldValue_shipped (record : JsValue) (fieldKey : string) :
  getFieldValue fieldDefinitions record fieldKey = walk (Js.split "." fieldKey) record.
Proof.
  unfold getFieldValue, getFieldDefinition.
  destruct (fieldDefinitions !! fieldKey) as [fieldDef|] eqn:Hd; [|done].
  schema_cases Hd; reflexivity.
Qed.

(** X8. For the shipped schema the custom accessors change nothing: the
    value resolved for a field is the value found by walking its dotted
    path, for every record and every key, known or not. *)
Theorem getFieldValue_is_path_walk (record : JsValue) (fieldKey : string) :
  getFieldValue fieldDefinitions record fieldKey = getNestedValue record fieldKey.
Proof. apply getFieldValue_shipped. Qed.

(** X9. The schema is well formed: every field that [getAvailableFields]
    lists resolves to a definition that carries the field's own key, declares
    at least one operator and only operators of its type, and lists options
    when it is a select field. *)
Theorem fieldDefinitions_well_formed (k : string) :
  k ∈ getAvailableFields ->
  exists fieldDef,
    getFieldDefinition fieldDefinitions k = Some fieldDef
    /\ key fieldDef = k
    /\ operators fieldDef <> []
    /\ operators fieldDef ⊆ operatorsOf (type fieldDef)
    /\ (type fieldDef = singleSelect \/ type fieldDef = multiSelect ->
        exists opts, options fieldDef = Some opts /\ opts <> []).
Proof.
  unfold getFieldDefinition, getAvailableFields. rewrite list_elem_of_fmap.
  intros ([k' fieldDef] & -> & Hin). simpl. apply fieldDefinitions_lookup in Hin as Hd.
  exists fieldDef. split; [done|]. clear Hin.
  schema_cases Hd; (split; [reflexivity|]); (split; [done|]);
    (split; [by apply (bool_decide_unpack _); vm_compute|]);
    intros [Ht|Ht]; try discriminate Ht; by eexists.
Qed.

Lemma fieldDefinitions_well_formed_witness :
  exists fieldDef,
    getFieldDefinition fieldDefinitions "address.city" = Some fieldDef
    /\ key fieldDef = "address.city"
    /\ operators fieldDef <> []
    /\ operators fieldDef ⊆ operatorsOf (type fieldDef)
    /\ (type fieldDef = singleSelect \/ type fieldDef = multiSelect ->
        exists opts, options fieldDef = Some opts /\ opts <> []).
Proof.
  apply (fieldDefinitions_well_formed "address.city").
  apply (bool_decide_unpack _). by vm_compute.
Defined.

(** X10. Against the shipped schema, a condition the validator accepts
    carries an operator that the evaluator of the field's type recognizes. *)
Theorem validated_operator_recognized (c : FilterCondition) :
  validateFilterCondition fieldDefinitions c = true ->
  exists fieldDef,
    getFieldDefinition fieldDefinitions (field c) = Some fieldDef
    /\ operator c ∈ operatorsOf (type fieldDef).
Proof.
  destruct c as [i f op v]. unfold validateFilterCondition, getFieldDefinition. simpl.
  destruct (fieldDefinitions !! f) as [fieldDef|] eqn:Hd; [|done].
  destruct (bool_decide (op ∈ operators fieldDef)) eqn:Hop; [|done].
  intros _. exists fieldDef. split; [done|].
  apply bool_decide_eq_true_1 in Hop. revert op Hop.
  change (operators fieldDef ⊆ operatorsOf (type fieldDef)).
  schema_cases Hd; by apply (bool_decide_unpack _); vm_compute.
Qed.

Lemma validated_operator_recognized_witness :
  exists fieldDef,
    getFieldDefinition fieldDefinitions "isActive" = Some fieldDef
    /\ "is" ∈ operatorsOf (type fieldDef).
Proof.
  apply (validated_operator_recognized (condition "isActive" "is" (JBool false))).
  by vm_compute.
Defined.

(** ** [App]: validation before filtering *)

Lemma textFieldsAreStrings_shipped (record : JsValue) :
  (truthy (getNestedValue record "name") = false \/ isString (getNestedValue record "name") = true) ->
  (truthy (getNestedValue record "email") = false \/ isString (getNestedValue record "email") = true) ->
  textFieldsAreStrings fieldDefinitions record.
Proof.
  intros Hname Hemail k fieldDef Hd Ht. unfold getFieldValue, getFieldDefinition. rewrite Hd.
  schema_cases Hd; try discriminate Ht; done.
Qed.

Lemma validated_has_definition cfg c :
  validateFilterCondition cfg c = true -> is_Some (cfg !! field c).
Proof.
  unfold validateFilterCondition, getFieldDefinition.
  destruct (cfg !! field c); [eauto|done].
Qed.

Lemma fieldsConvert_shipped h (record : JsValue) :
  Forall (fun k => converts h (getNestedValue record k)) getAvailableFields ->
  fieldsConvert h fieldDefinitions record.
Proof.
  intros Hall k fieldDef Hd. rewrite getFieldValue_shipped.
  rewrite Forall_forall in Hall. apply Hall.
  unfold getAvailableFields. apply list_elem_of_fmap. exists (k, fieldDef).
  split; [done|]. by apply fieldDefinitions_lookup.
Qed.

(** X11. Whatever conditions it is given, valid or not, [App] computes its
    list without a throw when, in every record, the value of each field
    converts to a primitive and the value of each text field is a string or
    falsy: the validator keeps back every condition that could throw on such
    records.  (Conditions on a field named like an inherited member are
    excluded.) *)
Theorem filteredEmployees_returns h cfg (employees : list JsValue)
    (filters : list FilterCondition) :
  ownFields filters ->
  (forall r, r ∈ employees -> textFieldsAreStrings cfg r /\ fieldsConvert h cfg r) ->
  returns (filteredEmployees h cfg employees filters).
Proof.
  intros _ Htyped. unfold filteredEmployees. rewrite filterEmployees_as_filter.
  apply filter_returns. intros r Hr. apply every_returns. intros c Hc.
  apply list_elem_of_In, filter_In in Hc as [_ Hvalid].
  destruct (Htyped r Hr) as [Htext Hconv].
  destruct (validated_has_definition cfg c Hvalid) as [fieldDef Hd].
  apply validated_returns; [done| |by apply (Hconv _ fieldDef)].
  intros fieldDef' Hd' Ht. by apply (Htext _ fieldDef').
Qed.

Lemma filteredEmployees_returns_witness :
  returns (filteredEmployees pacific fieldDefinitions twoRecords
             [nameUnset; condition "skills" "in" (JStr "Java"); inSales;
              condition "projects" "greaterThan" (JInt 1)]).
Proof.
  apply filteredEmployees_returns.
  - intros c Hc.
    repeat (apply elem_of_cons in Hc as [->|Hc]); [| | | |by apply elem_of_nil in Hc];
      apply (bool_decide_unpack _); by vm_compute.
  - intros r Hr.
    repeat (apply elem_of_cons in Hr as [->|Hr]);
      [| |by apply elem_of_nil in Hr];
      (split;
       [apply textFieldsAreStrings_shipped; vm_compute; auto
       |apply fieldsConvert_shipped; repeat constructor; by eexists]).
Defined.

(** X12. Conditions the validator rejects have no effect: when it rejects
    all of them, the table shows every employee. *)
Theorem filteredEmployees_all_invalid h cfg (employees : list JsValue)
    (filters : list FilterCondition) :
  ownFields filters ->
  (forall c, c ∈ filters -> validateFilterCondition cfg c = false) ->
  filteredEmployees h cfg employees filters = Normal employees.
Proof.
  intros _ Hinvalid. unfold filteredEmployees.
  replace (List.filter _ filters) with (@nil FilterCondition); [done|].
  symmetry. induction filters as [|c t IH]; [done|].
  simpl. rewrite (Hinvalid c) by left. apply IH. intros c' Hc'. apply Hinvalid. by right.
Qed.

Lemma filteredEmployees_all_invalid_witness :
  filteredEmployees pacific fieldDefinitions twoRecords
    [nameUnset; condition "isActive" "contains" (JBool true)]
  = Normal twoRecords.
Proof.
  apply filteredEmployees_all_invalid; intros c Hc;
    repeat (apply elem_of_cons in Hc as [->|Hc]);
    try (by apply elem_of_nil in Hc); try (by vm_compute);
    apply (bool_decide_unpack _); by vm_compute.
Defined.

(** ** [FilterBuilder] and [FilterRow]: editing the list of conditions *)

#[local] Instance FieldType_eq_dec : EqDecision FieldType.
Proof. solve_decision. Defined.

(** X13. A new row does not filter: the condition [createEmptyFilter]
    makes is rejected by the validator, so the list [App] shows after
    "Add Filter" is the list it showed before. *)
Theorem handleAddFilter_shows_the_same h (employees : list JsValue)
    (filters : list FilterCondition) (uuid : string) :
  ownFields filters ->
  validateFilterCondition fieldDefinitions (createEmptyFilter uuid) = false
  /\ filteredEmployees h fieldDefinitions employees (handleAddFilter filters uuid)
     = filteredEmployees h fieldDefinitions employees filters.
Proof.
  intros _. assert (validateFilterCondition fieldDefinitions (createEmptyFilter uuid) = false) as Hnew
    by (by vm_compute).
  split; [done|]. unfold filteredEmployees, handleAddFilter.
  rewrite List.filter_app. simpl. rewrite Hnew. by rewrite app_nil_r.
Qed.

Lemma handleAddFilter_shows_the_same_witness :
  validateFilterCondition fieldDefinitions (createEmptyFilter "filter-2") = false
  /\ filteredEmployees pacific fieldDefinitions twoRecords (handleAddFilter [inSales] "filter-2")
     = filteredEmployees pacific fieldDefinitions twoRecords [inSales].
Proof.
  apply handleAddFilter_shows_the_same. intros c Hc.
  apply list_elem_of_singleton in Hc as ->. apply (bool_decide_unpack _). by vm_compute.
Defined.

(** X14. [handleUpdateFilter] keeps the identifier and the position of
    every row, replaces each row that has the identifier of the update by
    the update, and changes nothing when no row has it. *)
Theorem handleUpdateFilter_spec (localFilters : list FilterCondition) (u : FilterCondition) :
  id <$> handleUpdateFilter localFilters u = id <$> localFilters
  /\ (forall i f, localFilters !! i = Some f ->
        handleUpdateFilter localFilters u !! i
        = Some (if bool_decide (id f = id u) then u else f))
  /\ (id u ∉ id <$> localFilters -> handleUpdateFilter localFilters u = localFilters).
Proof.
  unfold handleUpdateFilter. split; [|split].
  - induction localFilters as [|f t IH]; [done|]. cbn [map]. rewrite !fmap_cons.
    f_equal; [|exact IH]. by destruct (String.eqb_spec (id f) (id u)) as [->|].
  - intros i f Hf. change (map ?g localFilters) with (g <$> localFilters).
    rewrite list_lookup_fmap, Hf. simpl. by rewrite eqb_bool_decide.
  - induction localFilters as [|f t IH]; [done|]. intros Hnot. simpl.
    rewrite fmap_cons, not_elem_of_cons in Hnot. destruct Hnot as [Hne Hnot].
    rewrite IH by done. destruct (String.eqb_spec (id f) (id u)); [|done]. by destruct Hne.
Qed.

Lemma handleUpdateFilter_spec_witness :
  handleUpdateFilter [inSales; nameUnset]
    {| id := "filter-9"; field := "name"; operator := "equals"; value := JStr "x" |}
  = [inSales; nameUnset].
Proof.
  destruct (handleUpdateFilter_spec [inSales; nameUnset]
              {| id := "filter-9"; field := "name"; operator := "equals"; value := JStr "x" |})
    as (_ & _ & Hsame).
  apply Hsame. apply (bool_decide_unpack _). by vm_compute.
Defined.

(** X15. [handleRemoveFilter] removes every row with the identifier and
    no other, keeps the order, and undoes [handleAddFilter] when the
    identifier drawn for the new row is fresh. *)
Theorem handleRemoveFilter_spec (localFilters : list FilterCondition) (filterId : string) :
  (forall f, f ∈ handleRemoveFilter localFilters filterId
             <-> f ∈ localFilters /\ id f <> filterId)
  /\ sublist (handleRemoveFilter localFilters filterId) localFilters
  /\ (filterId ∉ id <$> localFilters ->
      handleRemoveFilter (handleAddFilter localFilters filterId) filterId = localFilters).
Proof.
  unfold handleRemoveFilter. split; [|split].
  - intros f. rewrite !list_elem_of_In, filter_In, negb_true_iff.
    destruct (String.eqb_spec (id f) filterId); split; intros [? ?]; by split.
  - induction localFilters as [|f t IH]; [constructor|]. simpl.
    destruct (negb _); by constructor.
  - intros Hfresh. unfold handleAddFilter. rewrite List.filter_app. simpl.
    rewrite String.eqb_refl. simpl. rewrite app_nil_r.
    induction localFilters as [|f t IH]; [done|]. simpl.
    rewrite fmap_cons, not_elem_of_cons in Hfresh. destruct Hfresh as [Hne Hfresh].
    rewrite IH by done. destruct (String.eqb_spec (id f) filterId); [|done].
    by destruct Hne.
Qed.

Lemma handleRemoveFilter_spec_witness :
  handleRemoveFilter (handleAddFilter [inSales; nameUnset] "filter-2") "filter-2"
  = [inSales; nameUnset].
Proof.
  destruct (handleRemoveFilter_spec [inSales; nameUnset] "filter-2") as (_ & _ & Hundo).
  apply Hundo. apply (bool_decide_unpack _). by vm_compute.
Defined.

(** X16. After another field of the schema is chosen for a row, the row
    keeps its identifier, carries an operator the new field declares, and
    is valid at once exactly when the new field is a number, date, amount or
    boolean field; an unknown field leaves the row as it was. *)
Theorem handleFieldChange_spec (localCondition : FilterCondition) (newField : string) :
  newField ∉ objectPrototypeKeys ->
  match getFieldDefinition fieldDefinitions newField with
  | Some newFieldDef =>
      id (handleFieldChange localCondition newField) = id localCondition
      /\ field (handleFieldChange localCondition newField) = newField
      /\ operator (handleFieldChange localCondition newField) ∈ operators newFieldDef
      /\ validateFilterCondition fieldDefinitions (handleFieldChange localCondition newField)
         = bool_decide (type newFieldDef ∈ [number; date; amount; boolean])
  | None => handleFieldChange localCondition newField = localCondition
  end.
Proof.
  intros _. unfold handleFieldChange, getFieldDefinition.
  destruct (fieldDefinitions !! newField) as [newFieldDef|] eqn:Hd; [|done].
  destruct localCondition as [i f op v].
  schema_cases Hd; (split; [reflexivity|]); (split; [reflexivity|]);
    (split; [by apply (bool_decide_unpack _); vm_compute|]); by vm_compute.
Qed.

Lemma handleFieldChange_spec_witness :
  operator (handleFieldChange nameUnset "skills") = "in"
  /\ validateFilterCondition fieldDefinitions (handleFieldChange nameUnset "skills") = false
  /\ validateFilterCondition fieldDefinitions (handleFieldChange nameUnset "salary") = true.
Proof.
  split; [reflexivity|]. split.
  - pose proof (handleFieldChange_spec nameUnset "skills") as Hspec.
    change (getFieldDefinition fieldDefinitions "skills")
      with (Some (select "skills" "Skills" multiSelect ["in"; "notIn"] skillsOptions))
      in Hspec.
    destruct Hspec as (_ & _ & _ & ->); [apply (bool_decide_unpack _); by vm_compute|].
    by vm_compute.
  - pose proof (handleFieldChange_spec nameUnset "salary") as Hspec.
    change (getFieldDefinition fieldDefinitions "salary")
      with (Some (plain "salary" "Salary" amount ["between"])) in Hspec.
    destruct Hspec as (_ & _ & _ & ->); [apply (bool_decide_unpack _); by vm_compute|].
    by vm_compute.
Defined.

(** ** The text evaluator *)

Lemma lower_unit_idemp c : lower_unit (lower_unit c) = lower_unit c.
Proof. destruct c as [[] [] [] [] [] [] [] []]; reflexivity. Qed.

Lemma toLowerCase_idemp s : toLowerCase (toLowerCase s) = toLowerCase s.
Proof. induction s as [|c t IH]; [done|]. simpl. by rewrite lower_unit_idemp, IH. Qed.

Lemma toLowerCase_empty s : toLowerCase s = "" <-> s = "".
Proof. by destruct s. Qed.

Lemma truthy_toLowerCase r r' :
  toLowerCase r = toLowerCase r' -> truthy (JStr r) = truthy (JStr r').
Proof. intros H. destruct r, r'; try done. Qed.

(** X17. The text evaluator sees its two strings only through their lower
    case: record values, and filter values, that differ in case alone give
    the same answer under every operator. *)
Theorem applyTextFilter_case_insensitive (r r' f f' : string) (op : string) :
  toLowerCase r = toLowerCase r' -> toLowerCase f = toLowerCase f' ->
  applyTextFilter (JStr r) op (JStr f) = applyTextFilter (JStr r') op (JStr f').
Proof.
  intros Hr Hf. unfold applyTextFilter. rewrite (truthy_toLowerCase r r' Hr).
  destruct (negb _); [done|]. cstep. by rewrite Hr, Hf.
Qed.

Lemma applyTextFilter_case_insensitive_witness :
  applyTextFilter (JStr "Engineering") "contains" (JStr "GINE")
  = applyTextFilter (JStr "ENGINEERING") "contains" (JStr "gine").
Proof. by apply applyTextFilter_case_insensitive. Defined.

Lemma prefix_refl s : String.prefix s s = true.
Proof. induction s as [|c t IH]; [done|]. simpl. by destruct (ascii_dec c c). Qed.

Lemma endsWith_refl s : endsWith s s = true.
Proof. destruct s; cbn [endsWith]; by rewrite String.eqb_refl. Qed.

Lemma prefix_includes s sub : String.prefix sub s = true -> includes s sub = true.
Proof. intros H. destruct s; cbn [includes]; by rewrite H. Qed.

Lemma endsWith_includes s suf : endsWith s suf = true -> includes s suf = true.
Proof.
  induction s as [|c t IH]; cbn [endsWith includes].
  - rewrite orb_false_r. intros <-%String.eqb_eq. reflexivity.
  - intros [<-%String.eqb_eq|Ht]%orb_prop.
    + by rewrite prefix_refl.
    + rewrite (IH Ht). apply orb_true_r.
Qed.

(** X18. On a non-empty record string and a string filter value:
    [equals] implies [startsWith] and [endsWith], each of these implies
    [contains], and [doesNotContain] is the negation of [contains]. *)
Theorem applyTextFilter_operators (r f : string) :
  r <> "" ->
  let matches op := applyTextFilter (JStr r) op (JStr f) = Normal true in
  (matches "equals" -> matches "startsWith" /\ matches "endsWith")
  /\ (matches "startsWith" \/ matches "endsWith" -> matches "contains")
  /\ (matches "doesNotContain" <-> ~ matches "contains").
Proof.
  intros Hr matches. subst matches. unfold applyTextFilter.
  rewrite truthy_nonempty by done. cstep.
  set (a := toLowerCase r). set (b := toLowerCase f). split; [|split].
  - intros [= ->%String.eqb_eq]. unfold startsWith.
    by rewrite prefix_refl, endsWith_refl.
  - intros [[= H]|[= H]]; f_equal; [by apply prefix_includes|by apply endsWith_includes].
  - destruct (includes a b); simpl; split; try done; intros H; by destruct H.
Qed.

Lemma applyTextFilter_operators_witness :
  applyTextFilter (JStr "Sales") "doesNotContain" (JStr "x") = Normal true
  <-> ~ applyTextFilter (JStr "Sales") "contains" (JStr "x") = Normal true.
Proof.
  destruct (applyTextFilter_operators "Sales" "x") as (_ & _ & Hnot); [done|exact Hnot].
Defined.

(** ** The number and amount evaluators *)

Lemma Qle_bool_total p q : Qle_bool p q = false -> Qle_bool q p = true.
Proof.
  intros H. apply Qle_bool_iff. destruct (Qlt_le_dec q p) as [Hlt|Hle].
  - by apply Qlt_le_weak.
  - apply Qle_bool_iff in Hle. congruence.
Qed.

Lemma Qeq_bool_le p q : Qeq_bool p q = Qle_bool p q && Qle_bool q p.
Proof.
  destruct (Qeq_bool p q) eqn:He.
  - apply Qeq_bool_iff in He. symmetry. apply andb_true_intro.
    split; apply Qle_bool_iff; rewrite He; apply Qle_refl.
  - destruct (Qle_bool p q) eqn:H1, (Qle_bool q p) eqn:H2; try done.
    apply Qle_bool_iff in H1, H2. pose proof (Qle_antisym _ _ H1 H2) as Heq.
    apply Qeq_bool_iff in Heq. congruence.
Qed.

Lemma isLessThan_numbers h a b : isLessThan h (JNum a) (JNum b) = Normal (num_lt a b).
Proof. reflexivity. Qed.

(** X19. Between two numbers that are not NaN, exactly one of [lessThan],
    [equals] and [greaterThan] holds, [lessThanOrEqual] is [lessThan] or
    [equals], and [greaterThanOrEqual] is [greaterThan] or [equals]. *)
Theorem applyNumberFilter_trichotomy h (a b : JsNum) :
  a <> NaN -> b <> NaN ->
  exists lt eq gt : bool,
    applyNumberFilter h (JNum a) "lessThan" (JNum b) = Normal lt
    /\ applyNumberFilter h (JNum a) "equals" (JNum b) = Normal eq
    /\ applyNumberFilter h (JNum a) "greaterThan" (JNum b) = Normal gt
    /\ applyNumberFilter h (JNum a) "lessThanOrEqual" (JNum b) = Normal (lt || eq)
    /\ applyNumberFilter h (JNum a) "greaterThanOrEqual" (JNum b) = Normal (gt || eq)
    /\ (if lt then 1 else 0) + (if eq then 1 else 0) + (if gt then 1 else 0) = 1%nat.
Proof.
  intros Ha Hb. unfold applyNumberFilter. simpl.
  unfold js_lt, js_gt, js_le, js_ge. rewrite !isLessThan_numbers.
  destruct a as [| | |p], b as [| | |q]; try done; simpl;
    try (by eexists _, _, _; repeat split).
  exists (negb (Qle_bool q p)), (Qeq_bool p q), (negb (Qle_bool p q)).
  rewrite Qeq_bool_le.
  destruct (Qle_bool p q) eqn:H1, (Qle_bool q p) eqn:H2; simpl;
    [| | |apply Qle_bool_total in H1; congruence]; by repeat split.
Qed.

Lemma applyNumberFilter_trichotomy_witness :
  exists lt eq gt : bool,
    applyNumberFilter pacific (JInt 3) "lessThan" (JNum PosInf) = Normal lt
    /\ applyNumberFilter pacific (JInt 3) "equals" (JNum PosInf) = Normal eq
    /\ applyNumberFilter pacific (JInt 3) "greaterThan" (JNum PosInf) = Normal gt
    /\ applyNumberFilter pacific (JInt 3) "lessThanOrEqual" (JNum PosInf) = Normal (lt || eq)
    /\ applyNumberFilter pacific (JInt 3) "greaterThanOrEqual" (JNum PosInf) = Normal (gt || eq)
    /\ (if lt then 1 else 0) + (if eq then 1 else 0) + (if gt then 1 else 0) = 1%nat.
Proof. by apply (applyNumberFilter_trichotomy pacific (Fin (inject_Z 3)) PosInf). Defined.

Lemma isLessThan_NaN_l h v p :
  ToPrimitive h v = Normal p -> isLessThan h (JNum NaN) v = Normal None.
Proof. unfold isLessThan. cstep. intros ->. by destruct p. Qed.

Lemma isLessThan_NaN_r h v p :
  ToPrimitive h v = Normal p -> isLessThan h v (JNum NaN) = Normal None.
Proof.
  unfold isLessThan. cstep. intros ->. destruct p; simpl; try done;
    by rewrite num_lt_NaN_r.
Qed.

(** X20. NaN matches nothing: the number evaluator returns false under
    every operator when the record value or the filter value is NaN, for
    every other value that the operator can compare with it, that is, under
    the four relational operators, every value that converts to a primitive
    (an object with a [toString] property of its own that is not a function
    does not, and the comparison throws), and under any other operator every
    value. *)
Theorem applyNumberFilter_NaN h (v : JsValue) (op : string) :
  (op ∈ relationalOperators -> converts h v) ->
  applyNumberFilter h (JNum NaN) op v = Normal false
  /\ applyNumberFilter h v op (JNum NaN) = Normal false.
Proof.
  intros Hconv.
  assert (strictEq v (JNum NaN) = false) as Heq by (by destruct v as [| | |[]| | |]).
  assert (strictEq (JNum NaN) v = false) as Heq' by (by destruct v as [| | |[]| | |]).
  destruct (decide (op ∈ relationalOperators)) as [Hop|Hop].
  - destruct (Hconv Hop) as [p Hp].
    unfold applyNumberFilter, js_lt, js_gt, js_le, js_ge.
    rewrite !(isLessThan_NaN_l h v p Hp), !(isLessThan_NaN_r h v p Hp), Heq, Heq'.
    cstep. split.
    + repeat destruct (String.eqb op _); done.
    + destruct (nullish v); [done|]. repeat destruct (String.eqb op _); done.
  - unfold applyNumberFilter, switch. cbn [find fst snd]. rewrite Heq, Heq'.
    assert (forall s, s ∈ relationalOperators -> String.eqb op s = false) as Hne.
    { intros s Hs. apply String.eqb_neq. by intros ->. }
    rewrite (Hne "greaterThan"), (Hne "lessThan"), (Hne "greaterThanOrEqual"),
      (Hne "lessThanOrEqual") by by_decide.
    split; [|destruct (nullish v)]; by destruct (String.eqb op "equals").
Qed.

Lemma applyNumberFilter_NaN_witness :
  applyNumberFilter pacific (JNum NaN) "lessThanOrEqual" (JObj [("min", JInt 5)])
  = Normal false
  /\ applyNumberFilter pacific (JObj [("min", JInt 5)]) "lessThanOrEqual" (JNum NaN)
     = Normal false.
Proof. apply applyNumberFilter_NaN. intros _. by eexists. Defined.

(** X21. [between] on an amount is [greaterThanOrEqual] the minimum and
    then, only when that holds, [lessThanOrEqual] the maximum of the number
    evaluator, for every record value and every filter value that is not
    null or undefined: the maximum is not read, and not compared, for a
    record below the minimum. *)
Theorem applyAmountFilter_as_number_filters h (rv fv : JsValue) :
  nullish fv = false ->
  applyAmountFilter h rv fv
  = (a ← applyNumberFilter h rv "greaterThanOrEqual" (ownProp fv "min");
     if a : bool then applyNumberFilter h rv "lessThanOrEqual" (ownProp fv "max")
     else Normal false).
Proof.
  intros Hfv. unfold applyAmountFilter, applyNumberFilter, getProp. rewrite Hfv.
  destruct (nullish rv); [done|]. cstep. by destruct (js_ge h rv _).
Qed.

Lemma applyAmountFilter_as_number_filters_witness :
  applyAmountFilter pacific (JInt 1)
    (JObj [("min", JInt 5); ("max", JObj [("toString", JInt 1)])])
  = Normal false.
Proof.
  by rewrite (applyAmountFilter_as_number_filters pacific (JInt 1)
                (JObj [("min", JInt 5); ("max", JObj [("toString", JInt 1)])])).
Defined.

Lemma num_le_Fin p q : num_le (Fin p) (Fin q) = Qle_bool p q.
Proof. unfold num_le. simpl. apply negb_involutive. Qed.

Lemma num_le_trans a b c : num_le a b = true -> num_le b c = true -> num_le a c = true.
Proof.
  destruct a as [| | |p], b as [| | |q], c as [| | |r]; try done.
  rewrite !num_le_Fin, !Qle_bool_iff. apply Qle_trans.
Qed.

Lemma num_le_refl a : a <> NaN -> num_le a a = true.
Proof.
  destruct a as [| | |p]; try done. intros _. rewrite num_le_Fin.
  apply Qle_bool_iff, Qle_refl.
Qed.

Lemma num_le_not_NaN a b : num_le a b = true -> a <> NaN /\ b <> NaN.
Proof. by destruct a, b. Qed.

Lemma applyAmountFilter_numbers h (r min max : JsNum) (fv : JsValue) :
  nullish fv = false -> ownProp fv "min" = JNum min -> ownProp fv "max" = JNum max ->
  applyAmountFilter h (JNum r) fv = Normal (num_le min r && num_le r max).
Proof.
  intros Hfv Hmin Hmax. unfold applyAmountFilter, getProp. rewrite Hfv. cstep.
  rewrite Hmin, Hmax. unfold js_ge, js_le. rewrite !isLessThan_numbers.
  cbv [mbind Completion_bind]. cbv iota beta.
  fold (num_le min r). fold (num_le r max). by destruct (num_le min r).
Qed.

(** X22. A range whose minimum exceeds its maximum matches no number: the
    evaluator does not reorder the bounds. *)
Theorem applyAmountFilter_inverted_range h (r min max : JsNum) (fv : JsValue) :
  nullish fv = false -> ownProp fv "min" = JNum min -> ownProp fv "max" = JNum max ->
  num_le min max = false ->
  applyAmountFilter h (JNum r) fv = Normal false.
Proof.
  intros Hfv Hmin Hmax Hinv. rewrite (applyAmountFilter_numbers h r min max) by done.
  f_equal. destruct (num_le min r) eqn:H1, (num_le r max) eqn:H2; try done.
  by rewrite (num_le_trans _ _ _ H1 H2) in Hinv.
Qed.

Lemma applyAmountFilter_inverted_range_witness :
  applyAmountFilter pacific (JInt 90000) (JObj [("min", JInt 120000); ("max", JInt 80000)])
  = Normal false.
Proof.
  apply (applyAmountFilter_inverted_range pacific (Fin (inject_Z 90000))
           (Fin (inject_Z 120000)) (Fin (inject_Z 80000))); by vm_compute.
Defined.

(** X23. An amount condition the validator accepts is a range that is not
    empty and is closed at both ends: a record whose value is the minimum,
    or the maximum, matches. *)
Theorem validated_amount_matches_bounds h cfg (c : FilterCondition) (fieldDef : FieldDefinition) :
  cfg !! field c = Some fieldDef -> type fieldDef = amount ->
  validateFilterCondition cfg c = true ->
  exists min max,
    ownProp (value c) "min" = JNum min /\ ownProp (value c) "max" = JNum max
    /\ num_le min max = true
    /\ applyAmountFilter h (JNum min) (value c) = Normal true
    /\ applyAmountFilter h (JNum max) (value c) = Normal true.
Proof.
  intros Hd Ht. unfold validateFilterCondition, getFieldDefinition. rewrite Hd, Ht.
  destruct (negb _); [done|].
  intros (((_ & Hnull)%andb_prop & _)%andb_prop & Hle)%andb_prop.
  assert (nullish (value c) = false) as Hfv by (by destruct (value c)).
  destruct (ownProp (value c) "min") as [| | |min| | |] eqn:Hmin; try done.
  destruct (ownProp (value c) "max") as [| | |max| | |] eqn:Hmax; try done.
  exists min, max. destruct (num_le_not_NaN _ _ Hle).
  repeat split; try done.
  - rewrite (applyAmountFilter_numbers h min min max) by done.
    by rewrite num_le_refl, Hle.
  - rewrite (applyAmountFilter_numbers h max min max) by done.
    by rewrite num_le_refl, Hle.
Qed.

Lemma validated_amount_matches_bounds_witness :
  exists min max,
    ownProp (JObj [("min", JInt 100000); ("max", JInt 100000)]) "min" = JNum min
    /\ ownProp (JObj [("min", JInt 100000); ("max", JInt 100000)]) "max" = JNum max
    /\ num_le min max = true
    /\ applyAmountFilter pacific (JNum min) (JObj [("min", JInt 100000); ("max", JInt 100000)])
       = Normal true
    /\ applyAmountFilter pacific (JNum max) (JObj [("min", JInt 100000); ("max", JInt 100000)])
       = Normal true.
Proof.
  apply (validated_amount_matches_bounds pacific fieldDefinitions
           (condition "salary" "between" (JObj [("min", JInt 100000); ("max", JInt 100000)]))
           (plain "salary" "Salary" amount ["between"])); by vm_compute.
Defined.

(** ** The multi-select evaluator *)

Lemma arrayIncludes_strings (rs : list string) (s : string) :
  arrayIncludes (JStr <$> rs) (JStr s) = bool_decide (s ∈ rs).
Proof.
  unfold arrayIncludes. induction rs as [|r t IH]; [done|].
  rewrite fmap_cons. cbn [existsb]. rewrite IH. cbn [sameValueZero strictEq].
  rewrite eqb_bool_decide.
  destruct (decide (r = s)) as [->|Hne].
  - rewrite (bool_decide_eq_true_2 (s = s)) by done. simpl.
    symmetry. apply bool_decide_eq_true_2. left.
  - rewrite (bool_decide_eq_false_2 (r = s)) by done. simpl.
    apply bool_decide_ext. rewrite elem_of_cons.
    split; [by right|]. intros [Heq|Hin]; [by subst|done].
Qed.

(** X24. On arrays of strings, [in] holds exactly when the record and the
    filter have a string in common, and [notIn] is its negation; so an empty
    selection is [in] nothing and [notIn] everything. *)
Theorem applyMultiSelectFilter_strings (rs fs : list string) :
  exists b : bool,
    applyMultiSelectFilter (JArr (JStr <$> rs)) "in" (JArr (JStr <$> fs)) = Normal b
    /\ applyMultiSelectFilter (JArr (JStr <$> rs)) "notIn" (JArr (JStr <$> fs)) = Normal (negb b)
    /\ (b = true <-> exists s, s ∈ rs /\ s ∈ fs).
Proof.
  exists (existsb (fun val => callIncludes (JArr (JStr <$> rs)) val) (JStr <$> fs)).
  split; [done|]. split; [done|].
  rewrite existsb_exists. split.
  - intros (v & Hv & Hinc). apply list_elem_of_In, list_elem_of_fmap in Hv as (s & -> & Hs).
    exists s. split; [|done]. cbn [callIncludes] in Hinc.
    rewrite arrayIncludes_strings in Hinc. by apply bool_decide_eq_true_1 in Hinc.
  - intros (s & Hr & Hf). exists (JStr s). split.
    + apply list_elem_of_In, list_elem_of_fmap. by exists s.
    + cbn [callIncludes]. rewrite arrayIncludes_strings. by apply bool_decide_eq_true_2.
Qed.

(** ** The validator on text and select fields *)

Lemma trimStart_cases s :
  (allWhite s = true /\ trimStart s = "")
  \/ (allWhite s = false /\ exists c t, trimStart s = String c t /\ is_white c = false).
Proof.
  unfold allWhite. induction s as [|c t IH]; [by left|].
  simpl. destruct (is_white c) eqn:Hc; [exact IH|]. right. split; [done|]. by exists c, t.
Qed.

Lemma trimEnd_nonempty c t : is_white c = false -> trimEnd (String c t) <> "".
Proof. intros Hc. simpl. destruct (trimEnd t); [by rewrite Hc|done]. Qed.

(** [trim] leaves nothing exactly of the strings made of white space. *)
Lemma trim_empty s : trim s = "" <-> allWhite s = true.
Proof.
  unfold trim. destruct (trimStart_cases s) as [[Hw ->]|[Hw (c & t & -> & Hc)]].
  - done.
  - rewrite Hw. split; [|done]. intros H. by apply trimEnd_nonempty in H.
Qed.

(** X25. On a text or single-select field, under a declared operator, a
    condition is valid exactly when its value is a string with a character
    that is not white space: the empty string and blank strings are
    rejected, and so is every value that is not a string. *)
Theorem validateFilterCondition_text cfg (c : FilterCondition) (fieldDef : FieldDefinition) :
  cfg !! field c = Some fieldDef ->
  type fieldDef = text \/ type fieldDef = singleSelect ->
  operator c ∈ operators fieldDef ->
  validateFilterCondition cfg c = true
  <-> exists s, value c = JStr s /\ allWhite s = false.
Proof.
  intros Hd Ht Hop. unfold validateFilterCondition, getFieldDefinition.
  rewrite Hd, bool_decide_eq_true_2 by done. simpl.
  assert (forall s, (0 <? String.length (trim s))%nat = true <-> allWhite s = false) as Htrim.
  { intros s. rewrite Nat.ltb_lt. pose proof (trim_empty s) as He.
    destruct (allWhite s), (trim s) eqn:Htr; simpl; split; intros; try done; try lia.
    - by pose proof (proj2 He eq_refl).
    - by pose proof (proj1 He eq_refl). }
  destruct Ht as [-> | ->]; destruct (value c) as [| | | |s| |];
    try (split; [done|by intros (? & [=] & _)]);
    rewrite Htrim; split; try (by intros (? & [= <-] & ?)); intros H; by exists s.
Qed.

Lemma validateFilterCondition_text_witness :
  validateFilterCondition fieldDefinitions (condition "name" "contains" (JStr "  ")) = true
  <-> exists s, JStr "  " = JStr s /\ allWhite s = false.
Proof.
  apply (validateFilterCondition_text fieldDefinitions
           (condition "name" "contains" (JStr "  ")) (plain "name" "Name" text textOperators)).
  - by vm_compute.
  - by left.
  - apply (bool_decide_unpack _). by vm_compute.
Defined.

(** ** The date evaluator on ranges that match nothing *)




(** X27. A range whose first day is after its last day matches no record
    date, for every offset of the local time zone: the evaluator does not
    reorder the bounds, and the validator does not compare them. *)
Theorem applyDateFilter_inverted_range h (rec from to : string) (fv : JsValue) (dr df dt : Z) :
  isoDateOnly rec = Some dr -> isoDateOnly from = Some df -> isoDateOnly to = Some dt ->
  nullish fv = false -> ownProp fv "from" = JStr from -> ownProp fv "to" = JStr to ->
  (dt < df)%Z ->
  applyDateFilter h (JStr rec) fv = Normal false.
Proof.
  intros Hr Hf Ht Hfv Hfrom Hto Hinv.
  rewrite (applyDateFilter_between h rec from to fv dr df dt) by done. f_equal.
  destruct (Z.leb_spec df dr), (Z.leb_spec dr dt); simpl; try done. lia.
Qed.

Lemma applyDateFilter_inverted_range_witness :
  validateFilterCondition fieldDefinitions
    (condition "joinDate" "between"
       (JObj [("from", JStr "2024-03-31"); ("to", JStr "2024-03-01")])) = true
  /\ applyDateFilter pacific (JStr "2024-03-15")
       (JObj [("from", JStr "2024-03-31"); ("to", JStr "2024-03-01")]) = Normal false.
Proof.
  split; [by vm_compute|].
  apply (applyDateFilter_inverted_range pacific "2024-03-15" "2024-03-31" "2024-03-01" _
           19797 19813 19783)%Z; solve [by vm_compute | lia].
Defined.

(** ** [DataTable]: the value a column shows *)

Lemma split_no_separator (sep : ascii) (s : string) :
  sep ∉ list_ascii_of_string s -> Js.split sep s = [s].
Proof.
  induction s as [|c t IH]; [done|]. simpl. intros Hnot.
  apply not_elem_of_cons in Hnot as [Hne Hnot].
  destruct (Ascii.eqb_spec c sep) as [->|_]; [done|]. by rewrite IH.
Qed.

(** X28. On the two address columns and on every column whose key has no
    dot, the table shows the value the filter resolves, whenever that value
    is present; on a record without [address] the table throws under an
    address column, where the filter resolves null. *)
Theorem getDisplayValue_vs_getFieldValue (record : JsValue) (column : string) :
  column = "address.city" \/ column = "address.state"
  \/ "."%char ∉ list_ascii_of_string column ->
  (nullish (getFieldValue fieldDefinitions record column) = false ->
   getDisplayValue record column = Normal (getFieldValue fieldDefinitions record column))
  /\ (nullish (getPropOpt record "address") = true ->
      column = "address.city" \/ column = "address.state" ->
      getDisplayValue record column = ThrowTypeError
      /\ getFieldValue fieldDefinitions record column = JNull).
Proof.
  intros Hcol. rewrite getFieldValue_shipped.
  assert (forall leaf, walk ["address"; leaf] record
            = if nullish (getPropOpt record "address") then JNull
              else if nullish (getPropOpt (getPropOpt record "address") leaf) then JNull
              else getPropOpt (getPropOpt record "address") leaf) as Hnested by done.
  assert (forall leaf,
            (address ← getProp record "address"; getProp address leaf)
            = if nullish record || nullish (ownProp record "address") then ThrowTypeError
              else Normal (ownProp (ownProp record "address") leaf)) as Hshown.
  { intros leaf. unfold getProp. destruct (nullish record); [done|]. cstep.
    by destruct (nullish (ownProp record "address")). }
  split.
  - destruct Hcol as [-> | [-> | Hdot]].
    + change (Js.split "." "address.city") with ["address"; "city"]. rewrite Hnested.
      change (getDisplayValue record "address.city")
        with (address ← getProp record "address"; getProp address "city").
      rewrite Hshown. unfold getPropOpt.
      destruct (nullish record); [done|]. simpl.
      destruct (nullish (ownProp record "address")); [done|].
      by destruct (nullish (ownProp _ "city")).
    + change (Js.split "." "address.state") with ["address"; "state"]. rewrite Hnested.
      change (getDisplayValue record "address.state")
        with (address ← getProp record "address"; getProp address "state").
      rewrite Hshown. unfold getPropOpt.
      destruct (nullish record); [done|]. simpl.
      destruct (nullish (ownProp record "address")); [done|].
      by destruct (nullish (ownProp _ "state")).
    + assert (getDisplayValue record column = getProp record column) as ->.
      { unfold getDisplayValue.
        destruct (String.eqb_spec column "address.city") as [->|_];
          [exfalso; apply Hdot; apply (bool_decide_unpack _); by vm_compute|].
        destruct (String.eqb_spec column "address.state") as [->|_];
          [exfalso; apply Hdot; apply (bool_decide_unpack _); by vm_compute|]. done. }
      rewrite split_no_separator by done. cbn [walk]. unfold getProp, getPropOpt.
      destruct (nullish record); [done|]. by destruct (nullish (ownProp record column)).
  - intros Haddr Hwhich.
    assert (nullish record || nullish (ownProp record "address") = true) as Hthrow.
    { unfold getPropOpt in Haddr. destruct (nullish record); [done|]. exact Haddr. }
    destruct Hwhich as [-> | ->].
    + change (Js.split "." "address.city") with ["address"; "city"]. rewrite Hnested, Haddr.
      change (getDisplayValue record "address.city")
        with (address ← getProp record "address"; getProp address "city").
      by rewrite Hshown, Hthrow.
    + change (Js.split "." "address.state") with ["address"; "state"]. rewrite Hnested, Haddr.
      change (getDisplayValue record "address.state")
        with (address ← getProp record "address"; getProp address "state").
      by rewrite Hshown, Hthrow.
Qed.

Lemma getDisplayValue_vs_getFieldValue_witness :
  getDisplayValue employee1 "name" = Normal (JStr "Jane Miller")
  /\ getDisplayValue (JObj [("name", JStr "Jane Miller")]) "address.city" = ThrowTypeError.
Proof.
  split.
  - destruct (getDisplayValue_vs_getFieldValue employee1 "name") as [Hshown _].
    + right. right. apply (bool_decide_unpack _). by vm_compute.
    + rewrite Hshown; by vm_compute.
  - destruct (getDisplayValue_vs_getFieldValue (JObj [("name", JStr "Jane Miller")])
                "address.city") as [_ Hthrows]; [by left|].
    apply Hthrows; [by vm_compute|by left].
Defined.

(** ** [MockApi]: looking an employee up *)

Lemma has_id_truthy (emp : JsValue) (id : JsNum) :
  strictEq (ownProp emp "id") (JNum id) = true -> truthy emp = true.
Proof. by destruct emp as [| |[]|[| | |]|s|l|props]. Qed.

Lemma callFind_spec (p : JsValue -> Completion bool) (l : list JsValue) :
  (forall x, x ∈ l -> returns (p x)) ->
  exists o,
    callFind p l = Normal o
    /\ match o with
       | None => forall x, x ∈ l -> p x = Normal false
       | Some r =>
           exists before after,
             l = (before ++ r :: after)%list /\ p r = Normal true
             /\ forall x, x ∈ before -> p x = Normal false
       end.
Proof.
  induction l as [|e t IH]; intros Hp.
  - exists None. split; [done|]. intros x Hx. by apply elem_of_nil in Hx.
  - destruct (Hp e) as [b Hb]; [left|].
    destruct IH as (o & Ho & Hcases); [intros x Hx; apply Hp; by right|].
    simpl. rewrite Hb. cstep. destruct b.
    + exists (Some e). split; [done|]. exists [], t. split; [done|]. split; [done|].
      intros x Hx. by apply elem_of_nil in Hx.
    + exists o. split; [done|]. destruct o as [r|].
      * destruct Hcases as (before & after & -> & Hr & Hbefore).
        exists (e :: before), after. split; [done|]. split; [done|].
        intros x [->|Hx]%elem_of_cons; [done|by apply Hbefore].
      * intros x [->|Hx]%elem_of_cons; [done|by apply Hcases].
Qed.

(** X29. Among employees none of which is null, [getEmployeeById] resolves
    to the first employee whose [id] is the number asked for, and to null
    when there is none. *)
Theorem getEmployeeById_spec (employees : list JsValue) (id : JsNum) :
  (forall x, x ∈ employees -> nullish x = false) ->
  exists r,
    getEmployeeById employees id = Normal r
    /\ ((r = JNull
         /\ forall x, x ∈ employees -> strictEq (ownProp x "id") (JNum id) = false)
        \/ exists before after,
             employees = (before ++ r :: after)%list
             /\ strictEq (ownProp r "id") (JNum id) = true
             /\ forall x, x ∈ before -> strictEq (ownProp x "id") (JNum id) = false).
Proof.
  intros Hnn. unfold getEmployeeById.
  set (p := fun emp => v ← getProp emp "id"; Normal (strictEq v (JNum id))).
  assert (forall x, x ∈ employees -> p x = Normal (strictEq (ownProp x "id") (JNum id))) as Hp.
  { intros x Hx. unfold p, getProp. by rewrite (Hnn x Hx). }
  destruct (callFind_spec p employees) as (o & -> & Hcases).
  { intros x Hx. rewrite (Hp x Hx). eauto. }
  cstep. destruct o as [r|].
  - destruct Hcases as (before & after & Hsplit & Hr & Hbefore).
    assert (r ∈ employees) as Hin by (rewrite Hsplit; apply elem_of_app; right; left).
    rewrite (Hp r Hin) in Hr. injection Hr as Hr.
    exists r. rewrite (has_id_truthy r id Hr). split; [done|]. right.
    exists before, after. split; [done|]. split; [done|]. intros x Hx.
    assert (x ∈ employees) as Hxin by (rewrite Hsplit; apply elem_of_app; by left).
    specialize (Hbefore x Hx). rewrite (Hp x Hxin) in Hbefore. by injection Hbefore.
  - exists JNull. split; [done|]. left. split; [done|]. intros x Hx.
    specialize (Hcases x Hx). rewrite (Hp x Hx) in Hcases. by injection Hcases.
Qed.

Lemma getEmployeeById_spec_witness :
  exists r,
    getEmployeeById twoRecords (Fin (inject_Z 1)) = Normal r
    /\ ((r = JNull
         /\ forall x, x ∈ twoRecords ->
              strictEq (ownProp x "id") (JNum (Fin (inject_Z 1))) = false)
        \/ exists before after,
             twoRecords = (before ++ r :: after)%list
             /\ strictEq (ownProp r "id") (JNum (Fin (inject_Z 1))) = true
             /\ forall x, x ∈ before ->
                  strictEq (ownProp x "id") (JNum (Fin (inject_Z 1))) = false).
Proof.
  apply (getEmployeeById_spec twoRecords (Fin (inject_Z 1))).
  intros x Hx. repeat (apply elem_of_cons in Hx as [->|Hx]); [done|done|].
  by apply elem_of_nil in Hx.
Defined.
